(** * Sidetree core: DID identifier parsing and the document composer

    Shallow embedding of [lib/core/versions/latest/Did.ts], and of the
    operations of [DocumentComposer] that its test-suite exercises, together
    with the properties the specification states about them.

    [DocumentComposer.ts] itself is not among the sources: its functions are
    modelled from the specification, in the order of checks that the
    expectations of the test-suite fix, and every such definition says so.

    Conventions:
    - a JavaScript string is a [string]; every character stands for one code
      unit, indices and lengths count code units;
    - [throw new SidetreeError(code)] is [Throw code] in the [Result] monad,
      and an [async] function is its synchronous result;
    - the collaborators of [Did.ts] whose code is not among the sources (the
      platform [URL] class, [Encoder], [Multihash], [CreateOperation]) are
      the fields of an interface class, so that every theorem on [Did.ts]
      holds for any implementation of them;
    - a plain JavaScript value is a [JSON] term, an object literal the list
      of its properties in the order they are written. *)

From Stdlib Require Import Strings.String Strings.Ascii Lists.List.
From Stdlib Require Import ZArith.ZArith Bool.Bool Arith.PeanoNat micromega.Lia.
Import ListNotations.

Local Open Scope list_scope.
Local Open Scope string_scope.

(* ================================================================== *)
(** ** Error codes and the result monad *)

(** The members of [ErrorCode] that the embedded code throws.  A collaborator
    may throw any other code; it is carried as [CollaboratorError]. *)
Inductive ErrorCode : Type :=
  | DidIncorrectPrefix
  | DidNoUniqueSuffix
  | DidInvalidMethodName
  | DidUniqueSuffixFromInitialStateMismatch
  | DidInvalidDidString
  | DidLongFormOnlyOneQueryParamAllowed
  | DidLongFormOnlyInitialStateParameterIsAllowed
  | DidLongFormNoInitialStateFound
  | DidInitialStateValueContainsNoDot
  | DidInitialStateValueContainsMoreThanOneDot
  | DidInitialStateValueDoesNotContainTwoParts
  | DocumentComposerDocumentMissing
  | DocumentComposerUnknownPropertyInDocument
  | DocumentComposerPublicKeysNotArray
  | DocumentComposerPublicKeyMissingOrUnknownProperty
  | DocumentComposerIdNotString
  | DocumentComposerIdNotUsingBase64UrlCharacterSet
  | DocumentComposerIdTooLong
  | DocumentComposerPublicKeyIdDuplicated
  | DocumentComposerPublicKeyTypeMissingOrUnknown
  | DocumentComposerOperationKeyTypeNotEs256k
  | DocumentComposerPublicKeyUsageMissingOrUnknown
  | DocumentComposerPublicKeyUsageExceedsMaxLength
  | DocumentComposerPublicKeyInvalidUsage
  | DocumentComposerPatchServiceEndpointsNotArray
  | DocumentComposerServiceEndpointMissingOrUnknownProperty
  | DocumentComposerPatchServiceEndpointTypeNotString
  | DocumentComposerPatchServiceEndpointTypeTooLong
  | DocumentComposerPatchServiceEndpointServiceEndpointNotString
  | DocumentComposerPatchServiceEndpointServiceEndpointTooLong
  | DocumentComposerPatchServiceEndpointServiceEndpointNotValidUrl
  | CollaboratorError (code : string).

Inductive Result (A : Type) : Type :=
  | Ok (a : A)
  | Throw (e : ErrorCode).
Arguments Ok {A} a.
Arguments Throw {A} e.

Definition bind {A B : Type} (m : Result A) (k : A -> Result B) : Result B :=
  match m with
  | Ok a => k a
  | Throw e => Throw e
  end.

Notation "x <- m ;; k" := (bind m (fun x => k))
  (at level 61, m at next level, right associativity).
Notation "'check' b 'else_throw' e ;; k" := (if b then k else Throw e)
  (at level 61, b at next level, e at next level, right associativity).

Definition succeeded {A : Type} (r : Result A) : bool :=
  match r with Ok _ => true | Throw _ => false end.

(* ================================================================== *)
(** ** The JavaScript string operations used by the code *)

Module JsString.

(** Position of the first occurrence of the code unit [c]. *)
Fixpoint index_of (c : ascii) (s : string) : option nat :=
  match s with
  | EmptyString => None
  | String a s' =>
      if Ascii.eqb a c then Some 0
      else option_map S (index_of c s')
  end.

(** Position of the last occurrence of the code unit [c]. *)
Fixpoint last_index_of (c : ascii) (s : string) : option nat :=
  match s with
  | EmptyString => None
  | String a s' =>
      match last_index_of c s' with
      | Some n => Some (S n)
      | None => if Ascii.eqb a c then Some 0 else None
      end
  end.

Definition js_index (o : option nat) : Z :=
  match o with
  | Some n => Z.of_nat n
  | None => (-1)%Z
  end.

(** [s.indexOf(c)] and [s.lastIndexOf(c)]: [-1] when [c] does not occur. *)
Definition indexOf (s : string) (c : ascii) : Z := js_index (index_of c s).
Definition lastIndexOf (s : string) (c : ascii) : Z :=
  js_index (last_index_of c s).

(** [s.includes(c)]. *)
Definition includes (s : string) (c : ascii) : bool :=
  match index_of c s with
  | Some _ => true
  | None => false
  end.

(** [s.length]. *)
Definition length (s : string) : Z := Z.of_nat (String.length s).

(** [s.startsWith(p)]. *)
Definition startsWith (s p : string) : bool := String.prefix p s.

(** [s.substring(start, end)]: both indices are clamped to [0, s.length]
    and swapped when [start > end]. *)
Definition substring (s : string) (start end_ : Z) : string :=
  let len := length s in
  let a := Z.min (Z.max start 0) len in
  let b := Z.min (Z.max end_ 0) len in
  let lo := Z.min a b in
  let hi := Z.max a b in
  String.substring (Z.to_nat lo) (Z.to_nat (hi - lo)) s.

(** [s.substring(start)]. *)
Definition substring_from (s : string) (start : Z) : string :=
  substring s start (length s).

(** [s.split(c)] for a one-character separator: never empty,
    [''.split(c)] is [['']]. *)
Fixpoint split (c : ascii) (s : string) : list string :=
  match s with
  | EmptyString => [EmptyString]
  | String a s' =>
      if Ascii.eqb a c then EmptyString :: split c s'
      else match split c s' with
           | h :: t => String a h :: t
           | [] => [String a EmptyString]
           end
  end.

(** Number of occurrences of [c]. *)
Fixpoint count (c : ascii) (s : string) : nat :=
  match s with
  | EmptyString => 0
  | String a s' => (if Ascii.eqb a c then 1 else 0) + count c s'
  end.

End JsString.

(* ================================================================== *)
(** ** Did.ts *)

Module Did.

(** The request object handed to [CreateOperation.parseObject]; a part
    taken from [split] at an index that does not exist is [undefined]. *)
Record CreateOperationRequest : Type := mkRequest {
  type : string;
  suffix_data : option string;
  delta : option string
}.

(** [OperationType.Create]. *)
Definition OperationType_Create : string := "create".

Definition initialStateParameterSuffix : string := "initial-state".

(** The template [`-${methodName}-${Did.initialStateParameterSuffix}`]. *)
Definition expectedKeyFor (methodName : string) : string :=
  "-" ++ methodName ++ "-" ++ initialStateParameterSuffix.

(** The collaborators of [Did.ts] whose code is outside the embedded
    sources.  Every result that can throw is a [Result]. *)
Class Collaborators : Type := {
  (** [CreateOperation], of which only [encodedSuffixData] is read. *)
  CreateOperation : Type;
  encodedSuffixData : CreateOperation -> string;
  (** [Buffer]. *)
  Buffer : Type;
  (** [new URL(s).searchParams], as the sequence of (key, value) entries in
      the order [forEach] visits them; [None] when [new URL(s)] throws. *)
  URL_searchParams : string -> option (list (string * string));
  (** [Buffer.from(JSON.stringify(request))]. *)
  Buffer_from_JSON_stringify : CreateOperationRequest -> Buffer;
  (** [CreateOperation.parseObject(request, buffer, allowAdditional)]. *)
  parseObject :
    CreateOperationRequest -> Buffer -> bool -> Result CreateOperation;
  (** [Encoder.decodeAsBuffer], [Encoder.encode]. *)
  decodeAsBuffer : string -> Result Buffer;
  encode : Buffer -> string;
  (** [Multihash.getHashAlgorithmCode], [Multihash.hash]. *)
  getHashAlgorithmCode : Buffer -> Result Z;
  hash : Buffer -> Z -> Result Buffer
}.

Section Methods.

Context {collaborators : Collaborators}.

Record Did : Type := mkDid {
  isShortForm : bool;
  didMethodName : string;
  uniqueSuffix : string;
  createOperation : option CreateOperation;
  shortForm : string
}.

(** The private constructor. *)
Definition new (did didMethodName : string) : Result Did :=
  check JsString.startsWith did didMethodName
    else_throw DidIncorrectPrefix ;;
  let indexOfQuestionMarkChar := JsString.indexOf did "?"%char in
  let isShortForm := (indexOfQuestionMarkChar <? 0)%Z in
  let uniqueSuffix :=
    if isShortForm
    then JsString.substring_from did (JsString.length didMethodName)
    else JsString.substring did (JsString.length didMethodName)
                            indexOfQuestionMarkChar in
  check negb (JsString.length uniqueSuffix =? 0)%Z
    else_throw DidNoUniqueSuffix ;;
  Ok {| isShortForm := isShortForm;
        didMethodName := didMethodName;
        uniqueSuffix := uniqueSuffix;
        createOperation := None;
        shortForm := didMethodName ++ uniqueSuffix |}.

(** The body of the [searchParams.forEach] callback, run over the
    entries with the two captured variables [queryParamCounter] and
    [initialStateValue] threaded as state. *)
Fixpoint forEach_searchParams (methodName : string)
    (entries : list (string * string))
    (queryParamCounter : Z) (initialStateValue : option string)
    : Result (Z * option string) :=
  match entries with
  | [] => Ok (queryParamCounter, initialStateValue)
  | (key, value) :: rest =>
      let queryParamCounter := (queryParamCounter + 1)%Z in
      check negb (1 <? queryParamCounter)%Z
        else_throw DidLongFormOnlyOneQueryParamAllowed ;;
      let expectedKey := expectedKeyFor methodName in
      check String.eqb key expectedKey
        else_throw DidLongFormOnlyInitialStateParameterIsAllowed ;;
      forEach_searchParams methodName rest queryParamCounter (Some value)
  end.

Definition getInitialStateFromDidString (didString methodName : string)
    : Result string :=
  match URL_searchParams didString with
  | None => Throw DidInvalidDidString
  | Some entries =>
      st <- forEach_searchParams methodName entries 0%Z None ;;
      match snd st with
      | None => Throw DidLongFormNoInitialStateFound
      | Some initialStateValue => Ok initialStateValue
      end
  end.

Definition constructCreateOperationFromInitialState (initialState : string)
    : Result CreateOperation :=
  let firstIndexOfDot := JsString.indexOf initialState "."%char in
  check negb (firstIndexOfDot =? -1)%Z
    else_throw DidInitialStateValueContainsNoDot ;;
  let lastIndexOfDot := JsString.lastIndexOf initialState "."%char in
  check (lastIndexOfDot =? firstIndexOfDot)%Z
    else_throw DidInitialStateValueContainsMoreThanOneDot ;;
  check negb (firstIndexOfDot =? JsString.length initialState - 1)%Z
    else_throw DidInitialStateValueDoesNotContainTwoParts ;;
  let initialStateParts := JsString.split "."%char initialState in
  let suffixData := nth_error initialStateParts 0 in
  let delta := nth_error initialStateParts 1 in
  let createOperationRequest :=
    {| type := OperationType_Create;
       suffix_data := suffixData;
       delta := delta |} in
  let createOperationBuffer :=
    Buffer_from_JSON_stringify createOperationRequest in
  parseObject createOperationRequest createOperationBuffer false.

(** The factory [Did.create]. *)
Definition create (didString expectedDidPrefix : string) : Result Did :=
  let didPrefixParts := JsString.split ":"%char expectedDidPrefix in
  check negb (List.length didPrefixParts <? 2)%nat
    else_throw DidInvalidMethodName ;;
  let methodName := nth 1 didPrefixParts EmptyString in
  did <- new didString expectedDidPrefix ;;
  if negb (isShortForm did) then
    initialState <- getInitialStateFromDidString didString methodName ;;
    createOperation <-
      constructCreateOperationFromInitialState initialState ;;
    uniqueSuffixBuffer <- decodeAsBuffer (uniqueSuffix did) ;;
    hashAlgorithmCode <- getHashAlgorithmCode uniqueSuffixBuffer ;;
    didUniqueSuffixDataBuffer <-
      decodeAsBuffer (encodedSuffixData createOperation) ;;
    multihash <- hash didUniqueSuffixDataBuffer hashAlgorithmCode ;;
    let didUniqueSuffixFromInitialState := encode multihash in
    check String.eqb didUniqueSuffixFromInitialState (uniqueSuffix did)
      else_throw DidUniqueSuffixFromInitialStateMismatch ;;
    Ok {| isShortForm := isShortForm did;
          didMethodName := didMethodName did;
          uniqueSuffix := uniqueSuffix did;
          createOperation := Some createOperation;
          shortForm := shortForm did |}
  else Ok did.

End Methods.

End Did.

(** *** Shapes in which the properties of [Did.create] are stated *)

(** The method name [create] reads off the prefix: [didPrefixParts[1]]. *)
Definition methodNameOf (expectedDidPrefix : string) : string :=
  nth 1 (JsString.split ":" expectedDidPrefix) EmptyString.

(** A long-form string: prefix, suffix, [?] and query. *)
Definition longFormString (expectedDidPrefix suffix query : string) : string :=
  expectedDidPrefix ++ suffix ++ String "?" query.

(** The request [create] builds from the two parts of the initial state. *)
Definition createRequest (suffixData delta : string)
    : Did.CreateOperationRequest :=
  {| Did.type := Did.OperationType_Create;
     Did.suffix_data := Some suffixData;
     Did.delta := Some delta |}.

(* ================================================================== *)
(** ** Plain JavaScript values *)

(** The values the document composer receives as [any] and the object
    literals it returns. *)
#[local] Unset Elimination Schemes.
Inductive JSON : Type :=
  | JUndefined
  | JNull
  | JBool (b : bool)
  | JNumber (n : Z)
  | JString (s : string)
  | JArray (items : list JSON)
  | JObject (properties : list (string * JSON)).
#[local] Set Elimination Schemes.

Module Js.

Fixpoint lookup (name : string) (properties : list (string * JSON))
    : option JSON :=
  match properties with
  | [] => None
  | (key, value) :: rest =>
      if String.eqb key name then Some value else lookup name rest
  end.

(** [o[name]]: [undefined] when [o] has no such property. *)
Definition getProperty (o : JSON) (name : string) : JSON :=
  match o with
  | JObject properties =>
      match lookup name properties with
      | Some value => value
      | None => JUndefined
      end
  | _ => JUndefined
  end.

(** [Object.keys(o)]; a value that is not an object literal has none. *)
Definition Object_keys (o : JSON) : list string :=
  match o with
  | JObject properties => map fst properties
  | _ => []
  end.

Definition hasOwnProperty (o : JSON) (name : string) : bool :=
  existsb (String.eqb name) (Object_keys o).

(** Membership in a [Set<string>] or [string[]]. *)
Definition includes (names : list string) (name : string) : bool :=
  existsb (String.eqb name) names.

End Js.

(* ================================================================== *)
(** ** DocumentComposer: data model *)

(** Modelled from the spec: the models [PublicKeyModel],
    [ServiceEndpointModel], [DocumentModel] and [DidState], whose
    declarations are absent from the sources, with the fields that section 3
    of the specification and the objects of the test-suite give them. *)
Module PublicKeyModel.
(** [usage] is [None] for a key object written without the property. *)
Record t : Type := mk {
  id : string;
  type : string;
  jwk : JSON;
  usage : option (list string)
}.
End PublicKeyModel.

Module ServiceEndpointModel.
Record t : Type := mk {
  id : string;
  type : string;
  serviceEndpoint : string
}.
End ServiceEndpointModel.

Module DocumentModel.
(** Either collection may be absent. *)
Record t : Type := mk {
  publicKeys : option (list PublicKeyModel.t);
  serviceEndpoints : option (list ServiceEndpointModel.t)
}.
End DocumentModel.

Module DidState.
Record t : Type := mk {
  document : DocumentModel.t;
  lastOperationTransactionNumber : Z;
  nextRecoveryCommitmentHash : option string;
  nextUpdateCommitmentHash : option string;
  recoveryKey : JSON
}.
End DidState.

(** Modelled from the spec: the enumeration [PublicKeyUsage], absent from
    the sources. *)
Module PublicKeyUsage.
Definition Ops : string := "ops".
Definition General : string := "general".
Definition Auth : string := "auth".
Definition values : list string := [Ops; General; Auth].
End PublicKeyUsage.

(** Modelled from the spec: a patch, tagged by its [action], with the
    properties the action comes with. *)
Inductive Patch : Type :=
  | AddPublicKeys (publicKeys : list PublicKeyModel.t)
  | RemovePublicKeys (publicKeys : list string)
  | AddServiceEndpoints (serviceEndpoints : list ServiceEndpointModel.t)
  | RemoveServiceEndpoints (serviceEndpointIds : list string).

(* ================================================================== *)
(** ** DocumentComposer *)

Module DocumentComposer.

(** Modelled from the spec: the constants of the composer that the
    specification names without giving their value, and the platform's URL
    syntax check. *)
Class Parameters : Type := {
  allowedPublicKeyTypes : list string;
  maxIdLength : nat;
  maxServiceEndpointTypeLength : nat;
  maxServiceEndpointLength : nat;
  isValidUrl : string -> bool
}.

(** Modelled from the spec: the key type required of operation keys, as
    the test-suite spells it. *)
Definition EcdsaSecp256k1VerificationKey2019 : string :=
  "EcdsaSecp256k1VerificationKey2019".

(** Modelled from the spec: the Base64URL alphabet: letters, digits, [-]
    and [_]. *)
Definition isBase64UrlChar (c : ascii) : bool :=
  let n := nat_of_ascii c in
  ((65 <=? n)%nat && (n <=? 90)%nat) || ((97 <=? n)%nat && (n <=? 122)%nat)
  || ((48 <=? n)%nat && (n <=? 57)%nat) || (n =? 45)%nat || (n =? 95)%nat.

Fixpoint isBase64UrlString (s : string) : bool :=
  match s with
  | EmptyString => true
  | String c s' => isBase64UrlChar c && isBase64UrlString s'
  end.

Section Validation.

Context {parameters : Parameters}.

(** Modelled from the spec: [validateId], absent from the sources.  An id
    is a string, within the length limit, over the Base64URL alphabet;
    the tests fix the order of the three checks.  Returns the id. *)
Definition validateId (id : JSON) : Result string :=
  match id with
  | JString s =>
      check (String.length s <=? maxIdLength)%nat
        else_throw DocumentComposerIdTooLong ;;
      check isBase64UrlString s
        else_throw DocumentComposerIdNotUsingBase64UrlCharacterSet ;;
      Ok s
  | _ => Throw DocumentComposerIdNotString
  end.

(** Modelled from the spec: [usage] lists the given purpose. *)
Definition usageIncludes (usage : JSON) (purpose : string) : bool :=
  match usage with
  | JArray items =>
      existsb (fun item => match item with
                           | JString s => String.eqb s purpose
                           | _ => false
                           end) items
  | _ => false
  end.

(** Modelled from the spec: the [type] rule of a public key.  A key
    carrying [ops] usage must have the secp256k1 type, any other key a
    type of the allowed set. *)
Definition validatePublicKeyType (publicKey : JSON) : Result unit :=
  if usageIncludes (Js.getProperty publicKey "usage") PublicKeyUsage.Ops
  then
    match Js.getProperty publicKey "type" with
    | JString t =>
        check String.eqb t EcdsaSecp256k1VerificationKey2019
          else_throw DocumentComposerOperationKeyTypeNotEs256k ;;
        Ok tt
    | _ => Throw DocumentComposerOperationKeyTypeNotEs256k
    end
  else
    match Js.getProperty publicKey "type" with
    | JString t =>
        check Js.includes allowedPublicKeyTypes t
          else_throw DocumentComposerPublicKeyTypeMissingOrUnknown ;;
        Ok tt
    | _ => Throw DocumentComposerPublicKeyTypeMissingOrUnknown
    end.

(** Modelled from the spec: the [usage] rule of a public key: an array
    of one to three entries, each of the allowed purposes. *)
Definition validatePublicKeyUsage (usage : JSON) : Result unit :=
  match usage with
  | JArray items =>
      check negb (List.length items =? 0)%nat
        else_throw DocumentComposerPublicKeyUsageMissingOrUnknown ;;
      check (List.length items <=? 3)%nat
        else_throw DocumentComposerPublicKeyUsageExceedsMaxLength ;;
      check forallb (fun item =>
               match item with
               | JString s => Js.includes PublicKeyUsage.values s
               | _ => false
               end) items
        else_throw DocumentComposerPublicKeyInvalidUsage ;;
      Ok tt
  | _ => Throw DocumentComposerPublicKeyUsageMissingOrUnknown
  end.

(** Modelled from the spec: the loop of [validatePublicKeys] over the
    entries, absent from the sources; [publicKeyIdSet] holds the ids met
    so far.  The rules of one key run in the order of the
    specification: id, uniqueness of the id, type, usage. *)
Fixpoint validatePublicKeyEntries (entries : list JSON)
    (publicKeyIdSet : list string) : Result unit :=
  match entries with
  | [] => Ok tt
  | publicKey :: rest =>
      id <- validateId (Js.getProperty publicKey "id") ;;
      check negb (Js.includes publicKeyIdSet id)
        else_throw DocumentComposerPublicKeyIdDuplicated ;;
      _ <- validatePublicKeyType publicKey ;;
      _ <- validatePublicKeyUsage (Js.getProperty publicKey "usage") ;;
      validatePublicKeyEntries rest (id :: publicKeyIdSet)
  end.

(** Modelled from the spec: [validatePublicKeys], absent from the
    sources. *)
Definition validatePublicKeys (publicKeys : JSON) : Result unit :=
  match publicKeys with
  | JArray entries => validatePublicKeyEntries entries []
  | _ => Throw DocumentComposerPublicKeysNotArray
  end.

(** Modelled from the spec: the rules of one service endpoint, absent
    from the sources: exactly the properties [id], [type] and
    [serviceEndpoint]; the tests fix the order of the checks. *)
Definition validateServiceEndpoint (serviceEndpoint : JSON) : Result unit :=
  let keys := Js.Object_keys serviceEndpoint in
  check (List.length keys =? 3)%nat
        && forallb (Js.includes keys) ["id"; "type"; "serviceEndpoint"]
    else_throw DocumentComposerServiceEndpointMissingOrUnknownProperty ;;
  _ <- validateId (Js.getProperty serviceEndpoint "id") ;;
  match Js.getProperty serviceEndpoint "type" with
  | JString t =>
      check (String.length t <=? maxServiceEndpointTypeLength)%nat
        else_throw DocumentComposerPatchServiceEndpointTypeTooLong ;;
      match Js.getProperty serviceEndpoint "serviceEndpoint" with
      | JString e =>
          check (String.length e <=? maxServiceEndpointLength)%nat
            else_throw
              DocumentComposerPatchServiceEndpointServiceEndpointTooLong ;;
          check isValidUrl e
            else_throw
              DocumentComposerPatchServiceEndpointServiceEndpointNotValidUrl ;;
          Ok tt
      | _ =>
          Throw DocumentComposerPatchServiceEndpointServiceEndpointNotString
      end
  | _ => Throw DocumentComposerPatchServiceEndpointTypeNotString
  end.

(** Modelled from the spec: the loop of [validateServiceEndpoints] over the
    entries. *)
Fixpoint validateServiceEndpointEntries (entries : list JSON)
    : Result unit :=
  match entries with
  | [] => Ok tt
  | serviceEndpoint :: rest =>
      _ <- validateServiceEndpoint serviceEndpoint ;;
      validateServiceEndpointEntries rest
  end.

(** Modelled from the spec: [validateServiceEndpoints], absent from the
    sources. *)
Definition validateServiceEndpoints (serviceEndpoints : JSON)
    : Result unit :=
  match serviceEndpoints with
  | JArray entries => validateServiceEndpointEntries entries
  | _ => Throw DocumentComposerPatchServiceEndpointsNotArray
  end.

(** Modelled from the spec: [validateDocument], absent from the sources.
    The rules run in the order of the specification and the first
    failure wins.  [None] is the [undefined] document. *)
Definition validateDocument (document : option (list (string * JSON)))
    : Result unit :=
  match document with
  | None => Throw DocumentComposerDocumentMissing
  | Some properties =>
      let document := JObject properties in
      check forallb (Js.includes ["publicKeys"; "serviceEndpoints"])
                    (Js.Object_keys document)
        else_throw DocumentComposerUnknownPropertyInDocument ;;
      _ <- (if Js.hasOwnProperty document "publicKeys"
            then validatePublicKeys (Js.getProperty document "publicKeys")
            else Ok tt) ;;
      if Js.hasOwnProperty document "serviceEndpoints"
      then validateServiceEndpoints
             (Js.getProperty document "serviceEndpoints")
      else Ok tt
  end.

End Validation.

(* ---------------------------------------------------------------- *)
(** *** Patch application *)

Definition existingPublicKeys (document : DocumentModel.t)
    : list PublicKeyModel.t :=
  match DocumentModel.publicKeys document with
  | Some keys => keys
  | None => []
  end.

Definition sameKeyId (a b : PublicKeyModel.t) : bool :=
  String.eqb (PublicKeyModel.id a) (PublicKeyModel.id b).

(** Modelled from the spec: one incoming key of an [add-public-keys]
    patch: it takes the place of the existing key that shares its id, or
    goes to the end. *)
Definition putPublicKey (keys : list PublicKeyModel.t)
    (incoming : PublicKeyModel.t) : list PublicKeyModel.t :=
  if existsb (sameKeyId incoming) keys
  then map (fun existing =>
              if sameKeyId incoming existing then incoming else existing)
           keys
  else (keys ++ [incoming])%list.

(** Modelled from the spec: [addPublicKeys], absent from the sources.  The
    incoming keys are taken in order; an absent collection is empty. *)
Definition addPublicKeys (document : DocumentModel.t)
    (publicKeys : list PublicKeyModel.t) : DocumentModel.t :=
  {| DocumentModel.publicKeys :=
       Some (fold_left putPublicKey publicKeys (existingPublicKeys document));
     DocumentModel.serviceEndpoints :=
       DocumentModel.serviceEndpoints document |}.

(** Modelled from the spec: [removePublicKeys], absent from the sources.
    Keys whose id is listed are filtered out. *)
Definition removePublicKeys (document : DocumentModel.t)
    (publicKeys : list string) : DocumentModel.t :=
  {| DocumentModel.publicKeys :=
       Some (filter (fun key =>
                       negb (Js.includes publicKeys (PublicKeyModel.id key)))
                    (existingPublicKeys document));
     DocumentModel.serviceEndpoints :=
       DocumentModel.serviceEndpoints document |}.

(** Modelled from the spec: [addServiceEndpoints], absent from the
    sources.  The entries are appended, to a collection created when the
    document has none. *)
Definition addServiceEndpoints (document : DocumentModel.t)
    (serviceEndpoints : list ServiceEndpointModel.t) : DocumentModel.t :=
  {| DocumentModel.publicKeys := DocumentModel.publicKeys document;
     DocumentModel.serviceEndpoints :=
       Some (match DocumentModel.serviceEndpoints document with
             | Some existing => (existing ++ serviceEndpoints)%list
             | None => serviceEndpoints
             end) |}.

(** Modelled from the spec: [removeServiceEndpoints], absent from the
    sources.  The document is returned as it is when it has no
    [serviceEndpoints]; otherwise the entries whose id is listed are
    filtered out. *)
Definition removeServiceEndpoints (document : DocumentModel.t)
    (serviceEndpointIds : list string) : DocumentModel.t :=
  match DocumentModel.serviceEndpoints document with
  | None => document
  | Some existing =>
      {| DocumentModel.publicKeys := DocumentModel.publicKeys document;
         DocumentModel.serviceEndpoints :=
           Some (filter (fun serviceEndpoint =>
                           negb (Js.includes serviceEndpointIds
                                   (ServiceEndpointModel.id serviceEndpoint)))
                        existing) |}
  end.

(** Modelled from the spec: the dispatch on the action of a patch. *)
Definition applyPatchToDocument (document : DocumentModel.t) (patch : Patch)
    : DocumentModel.t :=
  match patch with
  | AddPublicKeys publicKeys => addPublicKeys document publicKeys
  | RemovePublicKeys publicKeys => removePublicKeys document publicKeys
  | AddServiceEndpoints serviceEndpoints =>
      addServiceEndpoints document serviceEndpoints
  | RemoveServiceEndpoints serviceEndpointIds =>
      removeServiceEndpoints document serviceEndpointIds
  end.

(** Modelled from the spec: [applyPatches], absent from the sources.  The
    patches are applied strictly in the order given. *)
Definition applyPatches (document : DocumentModel.t) (patches : list Patch)
    : DocumentModel.t :=
  fold_left applyPatchToDocument patches document.

(* ---------------------------------------------------------------- *)
(** *** Transformation to the external document *)

(** Modelled from the spec: the three arrays that the public keys are
    distributed to. *)
Record KeyArrays : Type := mkKeyArrays {
  authentication : list JSON;
  publicKeys : list JSON;
  operationPublicKeys : list JSON
}.

Definition usageSet (publicKey : PublicKeyModel.t) : list string :=
  match PublicKeyModel.usage publicKey with
  | Some usage => usage
  | None => []
  end.

(** Modelled from the spec: the object a key is published as: its id
    behind [#], an empty controller, its type and its JWK. *)
Definition didDocumentPublicKey (publicKey : PublicKeyModel.t) : JSON :=
  JObject [ ("id", JString ("#" ++ PublicKeyModel.id publicKey));
            ("controller", JString EmptyString);
            ("type", JString (PublicKeyModel.type publicKey));
            ("publicKeyJwk", PublicKeyModel.jwk publicKey) ].

(** Modelled from the spec: the distribution of one key of
    [document.publicKeys] by its usage. *)
Definition pushPublicKey (arrays : KeyArrays) (publicKey : PublicKeyModel.t)
    : KeyArrays :=
  let id := "#" ++ PublicKeyModel.id publicKey in
  let rendered := didDocumentPublicKey publicKey in
  let usages := usageSet publicKey in
  let operationPublicKeys :=
    if Js.includes usages PublicKeyUsage.Ops
    then (operationPublicKeys arrays ++ [rendered])%list
    else operationPublicKeys arrays in
  if Js.includes usages PublicKeyUsage.General then
    {| authentication :=
         if Js.includes usages PublicKeyUsage.Auth
         then (authentication arrays ++ [JString id])%list
         else authentication arrays;
       publicKeys := (publicKeys arrays ++ [rendered])%list;
       operationPublicKeys := operationPublicKeys |}
  else
    {| authentication :=
         if Js.includes usages PublicKeyUsage.Auth
         then (authentication arrays ++ [rendered])%list
         else authentication arrays;
       publicKeys := publicKeys arrays;
       operationPublicKeys := operationPublicKeys |}.

(** Modelled from the spec: the copy of one service endpoint. *)
Definition didDocumentServiceEndpoint
    (serviceEndpoint : ServiceEndpointModel.t) : JSON :=
  JObject [ ("id", JString (ServiceEndpointModel.id serviceEndpoint));
            ("type", JString (ServiceEndpointModel.type serviceEndpoint));
            ("serviceEndpoint",
             JString (ServiceEndpointModel.serviceEndpoint serviceEndpoint)) ].

(** Modelled from the spec: [transformToExternalDocument], absent from the
    sources.  A state without next recovery commitment is deactivated and
    yields the status alone.  Otherwise the keys are distributed by usage:
    [ops] keys to [methodMetadata.operationPublicKeys], [general] keys to
    [publicKey], keys with [auth] to [authentication], by reference when
    the key is also [general] and embedded when it is not; [service] is
    the copy of [document.serviceEndpoints]. *)
Definition transformToExternalDocument (didState : DidState.t) (did : string)
    : JSON :=
  match DidState.nextRecoveryCommitmentHash didState with
  | None => JObject [ ("status", JString "deactivated") ]
  | Some _ =>
      let document := DidState.document didState in
      let arrays :=
        fold_left pushPublicKey (existingPublicKeys document)
                  (mkKeyArrays [] [] []) in
      let service :=
        match DocumentModel.serviceEndpoints document with
        | Some serviceEndpoints =>
            JArray (map didDocumentServiceEndpoint serviceEndpoints)
        | None => JUndefined
        end in
      let didDocument :=
        JObject [ ("id", JString did);
                  ("@context",
                   JArray [ JString "https://www.w3.org/ns/did/v1";
                            JObject [ ("@base", JString did) ] ]);
                  ("service", service);
                  ("publicKey", JArray (publicKeys arrays));
                  ("authentication", JArray (authentication arrays)) ] in
      JObject [ ("@context",
                 JString "https://www.w3.org/ns/did-resolution/v1");
                ("didDocument", didDocument);
                ("methodMetadata",
                 JObject [ ("operationPublicKeys",
                            JArray (operationPublicKeys arrays));
                           ("recoveryKey", DidState.recoveryKey didState) ]) ]
  end.

End DocumentComposer.

(** *** Shapes in which the properties of the composer are stated *)

(** The content an existing key has after an [add-public-keys] patch: that
    of the last incoming key with its id, its own when there is none. *)
Definition contentAfter (incoming : list PublicKeyModel.t)
    (existing : PublicKeyModel.t) : PublicKeyModel.t :=
  match find (fun key => DocumentComposer.sameKeyId key existing)
             (rev incoming) with
  | Some key => key
  | None => existing
  end.

(** An incoming key whose id no existing key has. *)
Definition isNewKey (existing : list PublicKeyModel.t)
    (incoming : PublicKeyModel.t) : bool :=
  negb (existsb (DocumentComposer.sameKeyId incoming) existing).

(** A service endpoint that a [remove-service-endpoints] patch keeps. *)
Definition isKept (serviceEndpointIds : list string)
    (serviceEndpoint : ServiceEndpointModel.t) : bool :=
  negb (Js.includes serviceEndpointIds
          (ServiceEndpointModel.id serviceEndpoint)).

(** The ids of the entries of a [publicKeys] array. *)
Definition publicKeyIds (entries : list JSON) : list JSON :=
  map (fun entry => Js.getProperty entry "id") entries.



(* ================================================================== *)
(** ** Reference collaborators

    One implementation of each interface, on which the embedded code can be
    run on concrete DID strings and documents.  Buffers are strings of
    bytes; the encoder writes a buffer in hexadecimal; a multihash is the
    algorithm code, the digest length and the digest, the digest of code 18
    being a one-byte checksum; the creation-operation parser accepts a
    request whose suffix data decodes to a text opening a JSON object. *)

Module Reference.

Definition hexDigit (n : nat) : ascii :=
  if (n <? 10)%nat then ascii_of_nat (48 + n) else ascii_of_nat (87 + n).

Definition hexValue (c : ascii) : option nat :=
  let n := nat_of_ascii c in
  if ((48 <=? n) && (n <=? 57))%nat then Some (n - 48)
  else if ((97 <=? n) && (n <=? 102))%nat then Some (n - 87)
  else if ((65 <=? n) && (n <=? 70))%nat then Some (n - 55)
  else None.

Fixpoint encodeHex (bytes : string) : string :=
  match bytes with
  | EmptyString => EmptyString
  | String c rest =>
      let n := nat_of_ascii c in
      String (hexDigit (n / 16)) (String (hexDigit (n mod 16)) (encodeHex rest))
  end.

Fixpoint decodeHex (text : string) : option string :=
  match text with
  | EmptyString => Some EmptyString
  | String a (String b rest) =>
      match hexValue a, hexValue b, decodeHex rest with
      | Some x, Some y, Some bytes =>
          Some (String (ascii_of_nat (16 * x + y)) bytes)
      | _, _, _ => None
      end
  | String _ EmptyString => None
  end.

Definition decodeAsBuffer (text : string) : Result string :=
  match decodeHex text with
  | Some bytes => Ok bytes
  | None => Throw (CollaboratorError "encoder_not_decodable")
  end.

Fixpoint checksum (bytes : string) (acc : nat) : nat :=
  match bytes with
  | EmptyString => acc
  | String c rest => checksum rest ((31 * acc + nat_of_ascii c) mod 256)
  end.

Definition hash (content : string) (code : Z) : Result string :=
  if (code =? 18)%Z
  then Ok (String (ascii_of_nat 18)
             (String (ascii_of_nat 1)
                (String (ascii_of_nat (checksum content 7)) EmptyString)))
  else Throw (CollaboratorError "multihash_unsupported_hash_algorithm").

Definition getHashAlgorithmCode (multihash : string) : Result Z :=
  match multihash with
  | String code (String len digest) =>
      if (String.length digest =? nat_of_ascii len)%nat
      then Ok (Z.of_nat (nat_of_ascii code))
      else Throw (CollaboratorError "multihash_inconsistent_length")
  | _ => Throw (CollaboratorError "multihash_too_short")
  end.

Record CreateOperation : Type := mkCreateOperation {
  encodedSuffixData : string;
  encodedDelta : string
}.

Definition parseObject (request : Did.CreateOperationRequest)
    (buffer : string) (allowAdditionalProperties : bool)
    : Result CreateOperation :=
  match Did.suffix_data request, Did.delta request with
  | Some suffixData, Some delta =>
      match decodeHex suffixData with
      | Some (String "{" _) =>
          Ok {| encodedSuffixData := suffixData; encodedDelta := delta |}
      | _ => Throw (CollaboratorError "create_operation_suffix_data_not_json")
      end
  | _, _ => Throw (CollaboratorError "create_operation_missing_property")
  end.

Definition quoted (s : string) : string :=
  String (ascii_of_nat 34) (s ++ String (ascii_of_nat 34) EmptyString).

Definition optionalText (o : option string) : string :=
  match o with
  | Some s => s
  | None => EmptyString
  end.

Definition Buffer_from_JSON_stringify (request : Did.CreateOperationRequest)
    : string :=
  "{" ++ quoted "type" ++ ":" ++ quoted (Did.type request) ++ ","
      ++ quoted "suffix_data" ++ ":"
      ++ quoted (optionalText (Did.suffix_data request)) ++ ","
      ++ quoted "delta" ++ ":"
      ++ quoted (optionalText (Did.delta request)) ++ "}".

(** *** The query entries of a URL

    For a URL of a scheme without special treatment and with an opaque
    path, as a DID is: the scheme runs to the first [:], the query from
    the first [?] to the first [#], and its entries are read as
    [application/x-www-form-urlencoded]. *)

Definition isAsciiAlpha (c : ascii) : bool :=
  let n := nat_of_ascii c in
  (((65 <=? n) && (n <=? 90)) || ((97 <=? n) && (n <=? 122)))%nat.

Definition isSchemeChar (c : ascii) : bool :=
  let n := nat_of_ascii c in
  (isAsciiAlpha c || ((48 <=? n) && (n <=? 57)) || (n =? 43) || (n =? 45)
   || (n =? 46))%nat.

(** The text after the scheme and its colon. *)
Fixpoint afterScheme (s : string) : option string :=
  match s with
  | EmptyString => None
  | String c rest =>
      if Ascii.eqb c ":" then Some rest
      else if isSchemeChar c then afterScheme rest
      else None
  end.

Fixpoint before (c : ascii) (s : string) : string :=
  match s with
  | EmptyString => EmptyString
  | String a rest =>
      if Ascii.eqb a c then EmptyString else String a (before c rest)
  end.

Fixpoint after (c : ascii) (s : string) : option string :=
  match s with
  | EmptyString => None
  | String a rest => if Ascii.eqb a c then Some rest else after c rest
  end.

Fixpoint plusToSpace (s : string) : string :=
  match s with
  | EmptyString => EmptyString
  | String a rest =>
      String (if Ascii.eqb a "+" then " "%char else a) (plusToSpace rest)
  end.

Fixpoint percentDecode (s : string) : string :=
  match s with
  | EmptyString => EmptyString
  | String c rest =>
      if Ascii.eqb c "%" then
        match rest with
        | String a (String b rest') =>
            match hexValue a, hexValue b with
            | Some x, Some y =>
                String (ascii_of_nat (16 * x + y)) (percentDecode rest')
            | _, _ => String c (percentDecode rest)
            end
        | _ => String c (percentDecode rest)
        end
      else String c (percentDecode rest)
  end.

Definition formEntry (sequence : string) : string * string :=
  let name := before "=" sequence in
  let value := optionalText (after "=" sequence) in
  (percentDecode (plusToSpace name), percentDecode (plusToSpace value)).

Definition URL_searchParams (s : string) : option (list (string * string)) :=
  match s with
  | EmptyString => None
  | String c _ =>
      if isAsciiAlpha c then
        match afterScheme s with
        | None => None
        | Some rest =>
            match after "?" (before "#" rest) with
            | None => Some []
            | Some query =>
                Some (map formEntry
                        (filter (fun sequence =>
                                   negb (String.eqb sequence EmptyString))
                                (JsString.split "&" query)))
            end
        end
      else None
  end.

Definition collaborators : Did.Collaborators := {|
  Did.CreateOperation := CreateOperation;
  Did.encodedSuffixData := encodedSuffixData;
  Did.Buffer := string;
  Did.URL_searchParams := URL_searchParams;
  Did.Buffer_from_JSON_stringify := Buffer_from_JSON_stringify;
  Did.parseObject := parseObject;
  Did.decodeAsBuffer := decodeAsBuffer;
  Did.encode := encodeHex;
  Did.getHashAlgorithmCode := getHashAlgorithmCode;
  Did.hash := hash
|}.

Definition parameters : DocumentComposer.Parameters := {|
  DocumentComposer.allowedPublicKeyTypes :=
    [ DocumentComposer.EcdsaSecp256k1VerificationKey2019;
      "JwsVerificationKey2020" ];
  DocumentComposer.maxIdLength := 20;
  DocumentComposer.maxServiceEndpointTypeLength := 30;
  DocumentComposer.maxServiceEndpointLength := 100;
  DocumentComposer.isValidUrl := fun s =>
    match URL_searchParams s with Some _ => true | None => false end
|}.

End Reference.

(* ================================================================== *)
(** ** The data of the test-suite *)

Module TestData.

Definition jwk (x y : string) : JSON :=
  JObject [ ("kty", JString "EC"); ("crv", JString "secp256k1");
            ("x", JString x); ("y", JString y) ].

(** [generateKeyPair('anySigningKey')]: every usage. *)
Definition anySigningPublicKey : PublicKeyModel.t :=
  {| PublicKeyModel.id := "anySigningKey";
     PublicKeyModel.type := DocumentComposer.EcdsaSecp256k1VerificationKey2019;
     PublicKeyModel.jwk := jwk "signing-x" "signing-y";
     PublicKeyModel.usage := Some ["ops"; "general"; "auth"] |}.

(** [generateKeyPair('authePbulicKey', ['auth'])]. *)
Definition authPublicKey : PublicKeyModel.t :=
  {| PublicKeyModel.id := "authePbulicKey";
     PublicKeyModel.type := DocumentComposer.EcdsaSecp256k1VerificationKey2019;
     PublicKeyModel.jwk := jwk "auth-x" "auth-y";
     PublicKeyModel.usage := Some ["auth"] |}.

Definition didState (nextRecoveryCommitmentHash : option string) : DidState.t :=
  {| DidState.document :=
       {| DocumentModel.publicKeys := Some [anySigningPublicKey; authPublicKey];
          DocumentModel.serviceEndpoints := None |};
     DidState.lastOperationTransactionNumber := 123;
     DidState.nextRecoveryCommitmentHash := nextRecoveryCommitmentHash;
     DidState.nextUpdateCommitmentHash := Some "anyCommitmentHash";
     DidState.recoveryKey := jwk "recovery-x" "recovery-y" |}.

(** The two keys of the test on a repeated key id. *)
Definition key1 (material : string) : JSON :=
  JObject [ ("id", JString "key1");
            ("type", JString DocumentComposer.EcdsaSecp256k1VerificationKey2019);
            (material, JString "anything");
            ("usage", JArray [JString "general"]) ].

Definition documentWithRepeatedKeyId : list (string * JSON) :=
  [ ("publicKeys", JArray [key1 "publicKeyHex"; key1 "publicKeyPem"]) ].

(** The same two keys in a document with a property that is not known. *)
Definition documentWithRepeatedKeyIdAndUnknownProperty
    : list (string * JSON) :=
  [ ("unknownProperty", JString "any value");
    ("publicKeys", JArray [key1 "publicKeyHex"; key1 "publicKeyPem"]) ].

Definition serviceEndpoint (id : string) : ServiceEndpointModel.t :=
  {| ServiceEndpointModel.id := id;
     ServiceEndpointModel.type := "t";
     ServiceEndpointModel.serviceEndpoint := "se" |}.

Definition aRepeatingId : PublicKeyModel.t :=
  {| PublicKeyModel.id := "aRepeatingId";
     PublicKeyModel.type := "someType";
     PublicKeyModel.jwk := JString "any value";
     PublicKeyModel.usage := Some ["ops"] |}.

Definition plainKey (id type : string) : PublicKeyModel.t :=
  {| PublicKeyModel.id := id;
     PublicKeyModel.type := type;
     PublicKeyModel.jwk := JUndefined;
     PublicKeyModel.usage := None |}.

End TestData.

(* ================================================================== *)
(** * Properties *)

(** ** Facts about the string operations *)

Module JsStringFacts.
Import JsString.

Ltac by_cases_on_char a c :=
  destruct (Ascii.eqb_spec a c); subst; simpl; try congruence.

Lemma index_of_none_cons (c a : ascii) (s : string) :
  index_of c (String a s) = None <-> a <> c /\ index_of c s = None.
Proof.
  simpl. by_cases_on_char a c.
  - split; [discriminate | intros [H _]; congruence].
  - destruct (index_of c s); simpl; split;
      try discriminate; try tauto; intros [_ H]; discriminate.
Qed.

Lemma index_of_app_sep (c : ascii) (a b : string) :
  index_of c a = None ->
  index_of c (a ++ String c b) = Some (String.length a).
Proof.
  induction a as [|x a IH]; intros H.
  - simpl. now rewrite Ascii.eqb_refl.
  - apply index_of_none_cons in H as [Hx Ha].
    simpl. by_cases_on_char x c. now rewrite IH.
Qed.

Lemma index_of_app_none (c : ascii) (a b : string) :
  index_of c a = None -> index_of c b = None -> index_of c (a ++ b) = None.
Proof.
  induction a as [|x a IH]; intros Ha Hb; [exact Hb|].
  apply index_of_none_cons in Ha as [Hx Ha].
  simpl. by_cases_on_char x c. now rewrite IH.
Qed.

Lemma last_index_of_none (c : ascii) (s : string) :
  last_index_of c s = None <-> index_of c s = None.
Proof.
  induction s as [|x s IH]; simpl; [tauto|].
  destruct (last_index_of c s), (index_of c s); simpl;
    by_cases_on_char x c; split; try discriminate; try tauto;
    try (destruct IH as [IH1 IH2]; (now discriminate IH1) || (now discriminate IH2)).
Qed.

Lemma last_index_of_app_sep (c : ascii) (a b : string) :
  index_of c b = None ->
  last_index_of c (a ++ String c b) = Some (String.length a).
Proof.
  intros Hb. apply last_index_of_none in Hb.
  induction a as [|x a IH]; simpl.
  - now rewrite Hb, Ascii.eqb_refl.
  - now rewrite IH.
Qed.

Lemma split_no_sep (c : ascii) (s : string) :
  index_of c s = None -> split c s = [s].
Proof.
  induction s as [|x s IH]; intros H; [reflexivity|].
  apply index_of_none_cons in H as [Hx Hs].
  simpl. by_cases_on_char x c. now rewrite IH.
Qed.

Lemma split_app_sep (c : ascii) (a b : string) :
  index_of c a = None -> split c (a ++ String c b) = a :: split c b.
Proof.
  induction a as [|x a IH]; intros H.
  - simpl. now rewrite Ascii.eqb_refl.
  - apply index_of_none_cons in H as [Hx Ha].
    simpl. by_cases_on_char x c. now rewrite IH.
Qed.

Lemma split_length (c : ascii) (s : string) :
  List.length (split c s) = S (count c s).
Proof.
  induction s as [|x s IH]; [reflexivity|].
  simpl. destruct (Ascii.eqb x c); simpl.
  - lia.
  - destruct (split c s); simpl in *; lia.
Qed.

Lemma count_zero (c : ascii) (s : string) :
  count c s = 0%nat <-> index_of c s = None.
Proof.
  induction s as [|x s IH]; simpl; [tauto|].
  by_cases_on_char x c.
  - split; discriminate.
  - rewrite IH. destruct (index_of c s); simpl; split; congruence.
Qed.

Lemma prefix_app (p s : string) : String.prefix p (p ++ s) = true.
Proof.
  induction p as [|x p IH]; simpl.
  - now destruct s.
  - destruct (ascii_dec x x); [exact IH | congruence].
Qed.

Lemma substring_0_app (b c : string) :
  String.substring 0 (String.length b) (b ++ c) = b.
Proof.
  induction b as [|x b IH]; simpl.
  - now destruct c.
  - now rewrite IH.
Qed.

Lemma substring_app (a b c : string) :
  String.substring (String.length a) (String.length b) (a ++ b ++ c) = b.
Proof.
  induction a as [|x a IH]; simpl; [apply substring_0_app | exact IH].
Qed.

Lemma substring_suffix (a b : string) :
  String.substring (String.length a) (String.length b) (a ++ b) = b.
Proof.
  induction a as [|x a IH]; simpl; [|exact IH].
  induction b as [|y b IHb]; simpl; congruence.
Qed.

Lemma length_app (a b : string) :
  String.length (a ++ b) = (String.length a + String.length b)%nat.
Proof. induction a; simpl; congruence. Qed.

Lemma length_zero (s : string) : String.length s = 0%nat <-> s = EmptyString.
Proof. destruct s; simpl; split; congruence. Qed.

End JsStringFacts.

(* ================================================================== *)
(** ** Did.ts: the constructor and the helpers of [create] *)

Section DidFacts.

Context {collaborators : Did.Collaborators}.
Import JsString JsStringFacts.

Lemma includes_false (s : string) (c : ascii) :
  includes s c = false <-> index_of c s = None.
Proof. unfold includes. destruct (index_of c s); split; congruence. Qed.

Lemma includes_true_parts (s : string) (c : ascii) :
  includes s c = true -> (List.length (split c s) <? 2)%nat = false.
Proof.
  intros H. apply Nat.ltb_ge. rewrite split_length.
  destruct (count c s) eqn:E; [|lia].
  apply count_zero in E. apply includes_false in E. congruence.
Qed.

Lemma substring_empty (n : nat) (s : string) :
  String.substring n 0 s = EmptyString.
Proof.
  revert s. induction n as [|n IH]; intros [|x s]; simpl; auto.
Qed.

Lemma js_substring_in_range (s : string) (a b : nat) :
  (a <= b <= String.length s)%nat ->
  substring s (Z.of_nat a) (Z.of_nat b) = String.substring a (b - a) s.
Proof.
  intros H. unfold substring, length.
  replace (Z.min (Z.max (Z.of_nat a) 0) (Z.of_nat (String.length s)))
    with (Z.of_nat a) by lia.
  replace (Z.min (Z.max (Z.of_nat b) 0) (Z.of_nat (String.length s)))
    with (Z.of_nat b) by lia.
  replace (Z.min (Z.of_nat a) (Z.of_nat b)) with (Z.of_nat a) by lia.
  replace (Z.max (Z.of_nat a) (Z.of_nat b)) with (Z.of_nat b) by lia.
  rewrite Nat2Z.id. f_equal. lia.
Qed.

Lemma append_assoc (a b c : string) : (a ++ b) ++ c = a ++ b ++ c.
Proof. induction a; simpl; congruence. Qed.

Lemma append_empty_r (a : string) : a ++ EmptyString = a.
Proof. induction a; simpl; congruence. Qed.

(** The constructor on a string without [?]: short form, the suffix is
    what follows the prefix. *)
Lemma new_short_form (didMethodName suffix : string) :
  index_of "?" didMethodName = None ->
  index_of "?" suffix = None ->
  suffix <> EmptyString ->
  Did.new (didMethodName ++ suffix) didMethodName
  = Ok {| Did.isShortForm := true;
          Did.didMethodName := didMethodName;
          Did.uniqueSuffix := suffix;
          Did.createOperation := None;
          Did.shortForm := didMethodName ++ suffix |}.
Proof.
  intros Hp Hs Hne. unfold Did.new, startsWith, indexOf.
  rewrite prefix_app, (index_of_app_none _ _ _ Hp Hs). simpl.
  unfold substring_from, length.
  rewrite js_substring_in_range by (rewrite length_app; lia).
  rewrite length_app, Nat.add_comm, Nat.add_sub, substring_suffix.
  destruct suffix; [congruence | reflexivity].
Qed.

(** The constructor on a string with a [?] after a non-empty suffix: long
    form, the suffix is what lies between the prefix and the [?]. *)
Lemma new_long_form (didMethodName suffix query : string) :
  index_of "?" didMethodName = None ->
  index_of "?" suffix = None ->
  suffix <> EmptyString ->
  Did.new (didMethodName ++ suffix ++ String "?" query) didMethodName
  = Ok {| Did.isShortForm := false;
          Did.didMethodName := didMethodName;
          Did.uniqueSuffix := suffix;
          Did.createOperation := None;
          Did.shortForm := didMethodName ++ suffix |}.
Proof.
  intros Hp Hs Hne.
  assert (Hidx : index_of "?" (didMethodName ++ suffix ++ String "?" query)
                 = Some (String.length (didMethodName ++ suffix))).
  { rewrite <- append_assoc.
    apply index_of_app_sep, index_of_app_none; assumption. }
  unfold Did.new, startsWith, indexOf.
  rewrite prefix_app, Hidx. simpl js_index. unfold length.
  replace (Z.of_nat (String.length (didMethodName ++ suffix)) <? 0)%Z
    with false by (symmetry; apply Z.ltb_ge; lia).
  rewrite js_substring_in_range
    by (rewrite !length_app; simpl; lia).
  rewrite length_app, Nat.add_comm, Nat.add_sub, substring_app.
  destruct suffix; [congruence | reflexivity].
Qed.

(** The constructor refuses a string that ends with the prefix or has the
    [?] right after it. *)
Lemma new_empty_suffix (didMethodName query : string) :
  index_of "?" didMethodName = None ->
  Did.new didMethodName didMethodName = Throw DidNoUniqueSuffix /\
  Did.new (didMethodName ++ String "?" query) didMethodName
  = Throw DidNoUniqueSuffix.
Proof.
  intros Hp. split; unfold Did.new, startsWith, indexOf.
  - pose proof (prefix_app didMethodName EmptyString) as Hself.
    rewrite append_empty_r in Hself. rewrite Hself, Hp. simpl.
    unfold substring_from, length.
    rewrite js_substring_in_range by lia.
    now rewrite Nat.sub_diag, substring_empty.
  - rewrite prefix_app, (index_of_app_sep _ _ _ Hp). simpl js_index.
    unfold length.
    replace (Z.of_nat (String.length didMethodName) <? 0)%Z
      with false by (symmetry; apply Z.ltb_ge; lia).
    rewrite js_substring_in_range by (rewrite length_app; lia).
    now rewrite Nat.sub_diag, substring_empty.
Qed.

End DidFacts.

(* ================================================================== *)
(** ** Did.ts: the checks of the long form *)

Section LongFormChecks.

Context {collaborators : Did.Collaborators}.
Import JsString JsStringFacts.

(** What [getInitialStateFromDidString] answers, by the shape of the
    query entries. *)
Lemma getInitialStateFromDidString_cases
    (didString methodName : string) (entries : list (string * string)) :
  Did.URL_searchParams didString = Some entries ->
  Did.getInitialStateFromDidString didString methodName
  = match entries with
    | [] => Throw DidLongFormNoInitialStateFound
    | (key, value) :: rest =>
        if String.eqb key (Did.expectedKeyFor methodName) then
          match rest with
          | [] => Ok value
          | _ :: _ => Throw DidLongFormOnlyOneQueryParamAllowed
          end
        else Throw DidLongFormOnlyInitialStateParameterIsAllowed
    end.
Proof.
  intros H. unfold Did.getInitialStateFromDidString. rewrite H.
  destruct entries as [|[key value] [|[key' value'] rest]]; simpl;
    try reflexivity;
    destruct (String.eqb key (Did.expectedKeyFor methodName)); reflexivity.
Qed.

Lemma getInitialStateFromDidString_invalid_url (didString methodName : string) :
  Did.URL_searchParams didString = None ->
  Did.getInitialStateFromDidString didString methodName
  = Throw DidInvalidDidString.
Proof.
  intros H. unfold Did.getInitialStateFromDidString. now rewrite H.
Qed.

(** A value without dot. *)
Lemma initial_state_without_dot (initialState : string) :
  includes initialState "." = false ->
  Did.constructCreateOperationFromInitialState initialState
  = Throw DidInitialStateValueContainsNoDot.
Proof.
  intros H. apply includes_false in H.
  unfold Did.constructCreateOperationFromInitialState, indexOf.
  now rewrite H.
Qed.

Lemma first_before_last (c : ascii) (s : string) :
  (2 <= count c s)%nat ->
  exists i j, index_of c s = Some i /\ last_index_of c s = Some j
              /\ (i < j)%nat.
Proof.
  induction s as [|x s IH]; simpl; [lia|].
  destruct (Ascii.eqb x c) eqn:E; simpl; intros H.
  - destruct (last_index_of c s) as [n|] eqn:L.
    + exists 0%nat, (S n). repeat split; lia.
    + apply last_index_of_none, count_zero in L. lia.
  - destruct (IH H) as (i & j & Hi & Hj & Hlt).
    rewrite Hi, Hj. exists (S i), (S j). repeat split; simpl; lia.
Qed.

(** A value with two dots or more. *)
Lemma initial_state_with_more_than_one_dot (initialState : string) :
  (2 <= count "." initialState)%nat ->
  Did.constructCreateOperationFromInitialState initialState
  = Throw DidInitialStateValueContainsMoreThanOneDot.
Proof.
  intros H. destruct (first_before_last _ _ H) as (i & j & Hi & Hj & Hlt).
  unfold Did.constructCreateOperationFromInitialState, indexOf, lastIndexOf.
  rewrite Hi, Hj. simpl js_index.
  replace (Z.of_nat i =? -1)%Z with false by (symmetry; apply Z.eqb_neq; lia).
  replace (Z.of_nat j =? Z.of_nat i)%Z with false
    by (symmetry; apply Z.eqb_neq; lia).
  reflexivity.
Qed.

(** A value whose only dot is its last character. *)
Lemma initial_state_with_trailing_dot (suffixData : string) :
  includes suffixData "." = false ->
  Did.constructCreateOperationFromInitialState
    (suffixData ++ String "." EmptyString)
  = Throw DidInitialStateValueDoesNotContainTwoParts.
Proof.
  intros H. apply includes_false in H.
  unfold Did.constructCreateOperationFromInitialState, indexOf, lastIndexOf,
    length.
  rewrite (index_of_app_sep _ _ _ H), last_index_of_app_sep by reflexivity.
  simpl js_index. rewrite length_app. simpl String.length.
  replace (Z.of_nat (String.length suffixData) =? -1)%Z with false
    by (symmetry; apply Z.eqb_neq; lia).
  rewrite Z.eqb_refl.
  replace (Z.of_nat (String.length suffixData)
           =? Z.of_nat (String.length suffixData + 1) - 1)%Z with true
    by (symmetry; apply Z.eqb_eq; lia).
  reflexivity.
Qed.

(** A value with one dot and text after it goes to the parser, whatever
    stands before the dot. *)
Lemma initial_state_with_one_dot (suffixData delta : string) :
  includes suffixData "." = false ->
  includes delta "." = false ->
  delta <> EmptyString ->
  Did.constructCreateOperationFromInitialState
    (suffixData ++ String "." delta)
  = let request := {| Did.type := Did.OperationType_Create;
                      Did.suffix_data := Some suffixData;
                      Did.delta := Some delta |} in
    Did.parseObject request (Did.Buffer_from_JSON_stringify request) false.
Proof.
  intros Hs Hd Hne. apply includes_false in Hs, Hd.
  unfold Did.constructCreateOperationFromInitialState, indexOf, lastIndexOf,
    length.
  rewrite (index_of_app_sep _ _ _ Hs), (last_index_of_app_sep _ _ _ Hd).
  rewrite (split_app_sep _ _ _ Hs), (split_no_sep _ _ Hd).
  simpl js_index. rewrite length_app. simpl String.length.
  replace (Z.of_nat (String.length suffixData) =? -1)%Z with false
    by (symmetry; apply Z.eqb_neq; lia).
  rewrite Z.eqb_refl.
  replace (Z.of_nat (String.length suffixData)
           =? Z.of_nat (String.length suffixData + S (String.length delta)) - 1)%Z
    with false.
  - reflexivity.
  - symmetry. apply Z.eqb_neq. destruct delta; [congruence | simpl; lia].
Qed.

(** What the constructor establishes. *)
Lemma new_inversion (didString didMethodName : string) (did : Did.Did) :
  Did.new didString didMethodName = Ok did ->
  Did.didMethodName did = didMethodName /\
  Did.isShortForm did = negb (includes didString "?") /\
  Did.uniqueSuffix did <> EmptyString /\
  Did.shortForm did = didMethodName ++ Did.uniqueSuffix did /\
  Did.createOperation did = None.
Proof.
  unfold Did.new. destruct (startsWith didString didMethodName); [|discriminate].
  match goal with
  | |- context [negb (length ?u =? 0)%Z] =>
      destruct (length u =? 0)%Z eqn:E; simpl; [discriminate|]
  end.
  intros H. injection H as <-. simpl. repeat split.
  - unfold indexOf, includes.
    destruct (index_of "?" didString); simpl js_index; cbn [negb];
      [apply Z.ltb_ge; lia | reflexivity].
  - intros Hempty. rewrite Hempty in E. discriminate.
Qed.

End LongFormChecks.

(* ================================================================== *)
(** ** Did.ts: [Did.create] *)

Section DidCreate.

Context {collaborators : Did.Collaborators}.
Import JsString JsStringFacts.

Ltac pass_prefix_check H :=
  unfold Did.create; rewrite (includes_true_parts _ _ H); cbn [negb].

(** [create] on a long-form string, up to the extraction of the initial
    state. *)
Lemma create_long_form_query (didString expectedDidPrefix : string)
    (did : Did.Did) (e : ErrorCode) :
  includes expectedDidPrefix ":" = true ->
  Did.new didString expectedDidPrefix = Ok did ->
  Did.isShortForm did = false ->
  Did.getInitialStateFromDidString didString (methodNameOf expectedDidPrefix)
  = Throw e ->
  Did.create didString expectedDidPrefix = Throw e.
Proof.
  intros Hp Hnew Hlong Hget. pass_prefix_check Hp.
  rewrite Hnew. cbn [bind]. rewrite Hlong. cbn [negb].
  fold (methodNameOf expectedDidPrefix). now rewrite Hget.
Qed.

(** (C10) [Did.create] validates [expectedDidPrefix] before it looks at
    the DID string: a prefix without [:] makes it throw
    [DidInvalidMethodName], whatever the DID string is. *)
Theorem create_checks_the_prefix_first (didString expectedDidPrefix : string) :
  includes expectedDidPrefix ":" = false ->
  Did.create didString expectedDidPrefix = Throw DidInvalidMethodName.
Proof.
  intros H. apply includes_false in H.
  unfold Did.create. now rewrite (split_no_sep _ _ H).
Qed.

(** (C8) Every [Did] that [Did.create] returns has a non-empty
    [uniqueSuffix], has [shortForm = didMethodName + uniqueSuffix] with
    [didMethodName] the expected prefix, is short form exactly when the
    string has no [?], and carries a [createOperation] exactly when the
    string has a [?].  An empty suffix is refused with
    [DidNoUniqueSuffix]: the prefix alone, and the prefix directly
    followed by [?]. *)
Theorem create_invariants (didString expectedDidPrefix : string)
    (did : Did.Did) :
  Did.create didString expectedDidPrefix = Ok did ->
  (Did.uniqueSuffix did <> EmptyString /\
   Did.shortForm did = Did.didMethodName did ++ Did.uniqueSuffix did /\
   Did.didMethodName did = expectedDidPrefix /\
   Did.isShortForm did = negb (includes didString "?") /\
   (Did.createOperation did <> None <-> includes didString "?" = true))
  /\
  (includes expectedDidPrefix "?" = false ->
   forall query : string,
     Did.create expectedDidPrefix expectedDidPrefix = Throw DidNoUniqueSuffix
     /\ Did.create (expectedDidPrefix ++ String "?" query) expectedDidPrefix
        = Throw DidNoUniqueSuffix).
Proof.
  unfold Did.create.
  destruct (List.length (split ":" expectedDidPrefix) <? 2)%nat eqn:Hparts;
    cbn [negb]; [discriminate|].
  intros H. split.
  - destruct (Did.new didString expectedDidPrefix) as [d|] eqn:Hnew;
      [|discriminate].
    apply new_inversion in Hnew as (Hname & Hshort & Hsuffix & Hform & Hop).
    cbn [bind] in H.
    destruct (Did.isShortForm d) eqn:Hd; cbn [negb] in H.
    + injection H as <-. rewrite Hform, Hname, Hop, Hd.
      do 4 (split; [now auto|]).
      split; intros Hx; [congruence|].
      rewrite Hx in Hshort. discriminate.
    + repeat match type of H with
             | bind ?m _ = Ok _ =>
                 destruct m; cbn [bind] in H; [|discriminate]
             end.
      match type of H with
      | (if ?b then _ else _) = _ => destruct b; [|discriminate]
      end.
      injection H as <-. cbn. rewrite Hform, Hname.
      do 4 (split; [now auto|]).
      split; intros _; [|discriminate].
      destruct (includes didString "?"); [reflexivity | discriminate Hshort].
  - intros Hq query. apply includes_false in Hq.
    destruct (new_empty_suffix expectedDidPrefix query Hq) as [H1 H2].
    now rewrite H1, H2.
Qed.

(** (C3, amended) On a long-form string that parses as a URL,
    [Did.create] judges the query entries in order: no entry is
    [DidLongFormNoInitialStateFound]; a first entry under another key than
    [-<method-name>-initial-state] is
    [DidLongFormOnlyInitialStateParameterIsAllowed], however many entries
    follow; a first entry under that key followed by another entry is
    [DidLongFormOnlyOneQueryParamAllowed]; and [create] returns only when
    the query is the single entry under that key. *)
Theorem create_judges_the_query_in_order
    (didString expectedDidPrefix : string) (parsed : Did.Did)
    (entries : list (string * string)) :
  includes expectedDidPrefix ":" = true ->
  Did.new didString expectedDidPrefix = Ok parsed ->
  Did.isShortForm parsed = false ->
  Did.URL_searchParams didString = Some entries ->
  let expectedKey := Did.expectedKeyFor (methodNameOf expectedDidPrefix) in
  (entries = [] ->
   Did.create didString expectedDidPrefix
   = Throw DidLongFormNoInitialStateFound)
  /\
  (forall key value rest,
     entries = (key, value) :: rest -> key <> expectedKey ->
     Did.create didString expectedDidPrefix
     = Throw DidLongFormOnlyInitialStateParameterIsAllowed)
  /\
  (forall value next rest,
     entries = (expectedKey, value) :: next :: rest ->
     Did.create didString expectedDidPrefix
     = Throw DidLongFormOnlyOneQueryParamAllowed)
  /\
  (forall did,
     Did.create didString expectedDidPrefix = Ok did ->
     exists value, entries = [(expectedKey, value)]).
Proof.
  intros Hp Hnew Hlong Hurl expectedKey.
  pose proof (getInitialStateFromDidString_cases
                didString (methodNameOf expectedDidPrefix) entries Hurl)
    as Hget.
  fold expectedKey in Hget.
  repeat split.
  - intros ->. eapply create_long_form_query; eauto.
  - intros key value rest -> Hkey.
    apply String.eqb_neq in Hkey. rewrite Hkey in Hget.
    eapply create_long_form_query; eauto.
  - intros value next rest ->. rewrite String.eqb_refl in Hget.
    eapply create_long_form_query; eauto.
  - intros did. pass_prefix_check Hp.
    rewrite Hnew. cbn [bind]. rewrite Hlong. cbn [negb].
    fold (methodNameOf expectedDidPrefix). rewrite Hget.
    destruct entries as [|[key value] rest]; [discriminate|].
    destruct (String.eqb_spec key expectedKey) as [->|]; [|discriminate].
    destruct rest; [|discriminate].
    intros _. now exists value.
Qed.

(** [create] on a well-formed long-form string, up to the answer of the
    parser. *)
Lemma create_long_form_parsed
    (expectedDidPrefix S query suffixData delta : string) :
  includes expectedDidPrefix ":" = true ->
  includes expectedDidPrefix "?" = false ->
  includes S "?" = false ->
  S <> EmptyString ->
  Did.URL_searchParams (longFormString expectedDidPrefix S query)
  = Some [(Did.expectedKeyFor (methodNameOf expectedDidPrefix),
           suffixData ++ String "." delta)] ->
  includes suffixData "." = false ->
  includes delta "." = false ->
  delta <> EmptyString ->
  Did.create (longFormString expectedDidPrefix S query) expectedDidPrefix
  = (createOperation <-
       Did.parseObject (createRequest suffixData delta)
         (Did.Buffer_from_JSON_stringify (createRequest suffixData delta))
         false ;;
     uniqueSuffixBuffer <- Did.decodeAsBuffer S ;;
     hashAlgorithmCode <- Did.getHashAlgorithmCode uniqueSuffixBuffer ;;
     didUniqueSuffixDataBuffer <-
       Did.decodeAsBuffer (Did.encodedSuffixData createOperation) ;;
     multihash <- Did.hash didUniqueSuffixDataBuffer hashAlgorithmCode ;;
     check String.eqb (Did.encode multihash) S
       else_throw DidUniqueSuffixFromInitialStateMismatch ;;
     Ok {| Did.isShortForm := false;
           Did.didMethodName := expectedDidPrefix;
           Did.uniqueSuffix := S;
           Did.createOperation := Some createOperation;
           Did.shortForm := expectedDidPrefix ++ S |}).
Proof.
  intros Hcolon Hp HS Hne Hurl Hsd Hdl Hdne.
  apply includes_false in Hp, HS.
  pass_prefix_check Hcolon. unfold longFormString in *.
  rewrite (new_long_form _ _ _ Hp HS Hne). cbn [bind Did.isShortForm negb].
  fold (methodNameOf expectedDidPrefix).
  rewrite (getInitialStateFromDidString_cases _ _ _ Hurl).
  rewrite String.eqb_refl. cbn [bind].
  rewrite (initial_state_with_one_dot _ _ Hsd Hdl Hdne).
  reflexivity.
Qed.

(** (C1, amended) Let a long-form string carry, after a prefix and a
    non-empty suffix [S], the single initial-state entry
    [<suffixData>.<delta>].  When the creation-operation parser refuses the
    request made of the two parts, its error is the error of [Did.create],
    whatever [S] is.  When the parser accepts the request and returns an
    operation whose encoded suffix data is [suffixData], the candidate
    suffix is [encode (hash (decode suffixData) (algorithm code of decode
    S))]: if the candidate equals [S], [Did.create] returns the long-form
    [Did] with [uniqueSuffix = S] and the operation; if it differs,
    [Did.create] throws [DidUniqueSuffixFromInitialStateMismatch]. *)
Theorem long_form_suffix_is_cross_checked
    (expectedDidPrefix S query suffixData delta : string) :
  includes expectedDidPrefix ":" = true ->
  includes expectedDidPrefix "?" = false ->
  includes S "?" = false ->
  S <> EmptyString ->
  Did.URL_searchParams (longFormString expectedDidPrefix S query)
  = Some [(Did.expectedKeyFor (methodNameOf expectedDidPrefix),
           suffixData ++ String "." delta)] ->
  includes suffixData "." = false ->
  includes delta "." = false ->
  delta <> EmptyString ->
  (forall e : ErrorCode,
     Did.parseObject (createRequest suffixData delta)
       (Did.Buffer_from_JSON_stringify (createRequest suffixData delta)) false
     = Throw e ->
     Did.create (longFormString expectedDidPrefix S query) expectedDidPrefix
     = Throw e)
  /\
  (forall (operation : Did.CreateOperation)
          (suffixBuffer dataBuffer multihash : Did.Buffer) (code : Z),
     Did.parseObject (createRequest suffixData delta)
       (Did.Buffer_from_JSON_stringify (createRequest suffixData delta)) false
     = Ok operation ->
     Did.encodedSuffixData operation = suffixData ->
     Did.decodeAsBuffer S = Ok suffixBuffer ->
     Did.getHashAlgorithmCode suffixBuffer = Ok code ->
     Did.decodeAsBuffer suffixData = Ok dataBuffer ->
     Did.hash dataBuffer code = Ok multihash ->
     (Did.encode multihash = S ->
      Did.create (longFormString expectedDidPrefix S query) expectedDidPrefix
      = Ok {| Did.isShortForm := false;
              Did.didMethodName := expectedDidPrefix;
              Did.uniqueSuffix := S;
              Did.createOperation := Some operation;
              Did.shortForm := expectedDidPrefix ++ S |})
     /\
     (Did.encode multihash <> S ->
      Did.create (longFormString expectedDidPrefix S query) expectedDidPrefix
      = Throw DidUniqueSuffixFromInitialStateMismatch)).
Proof.
  intros Hcolon Hp HS Hne Hurl Hsd Hdl Hdne.
  rewrite (create_long_form_parsed _ _ _ _ _
             Hcolon Hp HS Hne Hurl Hsd Hdl Hdne).
  split.
  - intros e Hparse. now rewrite Hparse.
  - intros operation suffixBuffer dataBuffer multihash code
      Hparse Hdata HdecS Hcode Hdec Hhash.
    rewrite Hparse. cbn [bind]. rewrite HdecS. cbn [bind].
    rewrite Hcode. cbn [bind]. rewrite Hdata, Hdec. cbn [bind].
    rewrite Hhash. cbn [bind].
    split; intros H.
    + apply String.eqb_eq in H. now rewrite H.
    + apply String.eqb_neq in H. now rewrite H.
Qed.

(** (C2) The initial state [.abc] has one dot and nothing before it.  It
    passes the three checks on the dot, and the request with the empty
    [suffix_data] is handed to the creation-operation parser: the result is
    the answer of the parser, not
    [DidInitialStateValueDoesNotContainTwoParts]. *)
Theorem initial_state_with_empty_suffix_data_reaches_the_parser :
  Did.constructCreateOperationFromInitialState ".abc"
  = Did.parseObject (createRequest EmptyString "abc")
      (Did.Buffer_from_JSON_stringify (createRequest EmptyString "abc")) false.
Proof. reflexivity. Qed.

End DidCreate.

(* ================================================================== *)
(** ** DocumentComposer: patch application *)

Module PatchFacts.
Import DocumentComposer.

Lemma sameKeyId_eq (a b : PublicKeyModel.t) :
  sameKeyId a b = true <-> PublicKeyModel.id a = PublicKeyModel.id b.
Proof. apply String.eqb_eq. Qed.

Lemma sameKeyId_sym (a b : PublicKeyModel.t) : sameKeyId a b = sameKeyId b a.
Proof. apply String.eqb_sym. Qed.

Lemma sameKeyId_congr (a b c : PublicKeyModel.t) :
  sameKeyId a b = true -> sameKeyId c a = sameKeyId c b.
Proof. unfold sameKeyId. intros H. apply String.eqb_eq in H. now rewrite H. Qed.

(** What one incoming key does to one existing key. *)
Definition overwrite (incoming existing : PublicKeyModel.t) : PublicKeyModel.t :=
  if sameKeyId incoming existing then incoming else existing.

Lemma overwrite_keeps_id (incoming existing other : PublicKeyModel.t) :
  sameKeyId other (overwrite incoming existing) = sameKeyId other existing.
Proof.
  unfold overwrite. destruct (sameKeyId incoming existing) eqn:E; [|reflexivity].
  now apply sameKeyId_congr.
Qed.

Lemma existsb_overwrite (incoming other : PublicKeyModel.t)
    (keys : list PublicKeyModel.t) :
  existsb (sameKeyId other) (map (overwrite incoming) keys)
  = existsb (sameKeyId other) keys.
Proof.
  induction keys as [|k keys IH]; [reflexivity|].
  simpl. now rewrite overwrite_keeps_id, IH.
Qed.

Lemma overwrite_absent (incoming : PublicKeyModel.t)
    (keys : list PublicKeyModel.t) :
  existsb (sameKeyId incoming) keys = false ->
  map (overwrite incoming) keys = keys.
Proof.
  induction keys as [|k keys IH]; [reflexivity|].
  simpl. intros H. apply orb_false_iff in H as [Hk Hkeys].
  unfold overwrite at 1. now rewrite Hk, IH.
Qed.

Lemma putPublicKey_unfold (keys : list PublicKeyModel.t)
    (incoming : PublicKeyModel.t) :
  putPublicKey keys incoming
  = if existsb (sameKeyId incoming) keys
    then map (overwrite incoming) keys
    else (keys ++ [incoming])%list.
Proof. reflexivity. Qed.

(** One incoming key, on the existing keys followed by the keys appended so
    far. *)
Lemma putPublicKey_app (existing appended : list PublicKeyModel.t)
    (incoming : PublicKeyModel.t) :
  (forall key, In key appended -> isNewKey existing key = true) ->
  putPublicKey (existing ++ appended) incoming
  = if isNewKey existing incoming
    then (existing ++ putPublicKey appended incoming)%list
    else (map (overwrite incoming) existing ++ appended)%list.
Proof.
  intros Hnew. rewrite !putPublicKey_unfold, existsb_app, map_app.
  unfold isNewKey.
  destruct (existsb (sameKeyId incoming) existing) eqn:E; simpl.
  - f_equal. apply overwrite_absent.
    destruct (existsb (sameKeyId incoming) appended) eqn:A; [|reflexivity].
    apply existsb_exists in A as (key & Hin & Hsame).
    apply existsb_exists in E as (k & Hk & Hs).
    specialize (Hnew key Hin). unfold isNewKey in Hnew.
    apply negb_true_iff in Hnew.
    assert (existsb (sameKeyId key) existing = true) as Hex.
    { apply existsb_exists. exists k. split; [exact Hk|].
      apply sameKeyId_eq in Hsame, Hs. apply sameKeyId_eq. congruence. }
    congruence.
  - rewrite (overwrite_absent _ _ E).
    destruct (existsb (sameKeyId incoming) appended);
      [reflexivity | now rewrite app_assoc].
Qed.

Lemma isNewKey_overwrite (incoming other : PublicKeyModel.t)
    (keys : list PublicKeyModel.t) :
  isNewKey (map (overwrite incoming) keys) other = isNewKey keys other.
Proof. unfold isNewKey. now rewrite existsb_overwrite. Qed.

Lemma In_putPublicKey (keys : list PublicKeyModel.t)
    (incoming key : PublicKeyModel.t) :
  In key (putPublicKey keys incoming) -> In key keys \/ key = incoming.
Proof.
  rewrite putPublicKey_unfold.
  destruct (existsb (sameKeyId incoming) keys).
  - intros H. apply in_map_iff in H as (k & <- & Hk).
    unfold overwrite. destruct (sameKeyId incoming k); auto.
  - intros H. apply in_app_or in H as [H|[H|[]]]; auto.
Qed.

(** The existing keys, each overwritten by the incoming keys in turn. *)
Definition overwriteAll (incoming : list PublicKeyModel.t)
    (existing : PublicKeyModel.t) : PublicKeyModel.t :=
  fold_left (fun current key => overwrite key current) incoming existing.

Lemma overwriteAll_keeps_id (incoming : list PublicKeyModel.t)
    (existing other : PublicKeyModel.t) :
  sameKeyId other (overwriteAll incoming existing) = sameKeyId other existing.
Proof.
  revert existing. induction incoming as [|k rest IH]; intros existing;
    [reflexivity|].
  unfold overwriteAll in *. simpl. now rewrite IH, overwrite_keeps_id.
Qed.

Lemma overwriteAll_contentAfter (incoming : list PublicKeyModel.t)
    (existing : PublicKeyModel.t) :
  overwriteAll incoming existing = contentAfter incoming existing.
Proof.
  induction incoming as [|k rest IH] using rev_ind; [reflexivity|].
  unfold overwriteAll in *. rewrite fold_left_app. simpl. rewrite IH.
  unfold contentAfter at 2. rewrite rev_unit. simpl.
  unfold overwrite.
  replace (sameKeyId k (contentAfter rest existing))
    with (sameKeyId k existing).
  - destruct (sameKeyId k existing); reflexivity.
  - rewrite <- IH. symmetry. apply (overwriteAll_keeps_id rest existing k).
Qed.

(** The loop of [addPublicKeys]: the existing keys keep their places and
    take the content of the incoming keys with their ids; the other
    incoming keys collect behind them. *)
Lemma fold_putPublicKey (incoming current appended : list PublicKeyModel.t) :
  (forall key, In key appended -> isNewKey current key = true) ->
  fold_left putPublicKey incoming (current ++ appended)%list
  = (map (overwriteAll incoming) current
     ++ fold_left putPublicKey (filter (isNewKey current) incoming) appended)%list.
Proof.
  revert current appended.
  induction incoming as [|k rest IH]; intros current appended Hnew.
  - simpl. now rewrite map_id.
  - simpl fold_left at 1. rewrite (putPublicKey_app _ _ _ Hnew). simpl filter.
    destruct (isNewKey current k) eqn:E.
    + rewrite IH.
      * simpl. f_equal. apply map_ext_in. intros a Ha.
        assert (overwrite k a = a) as Hk.
        { unfold overwrite. destruct (sameKeyId k a) eqn:S; [|reflexivity].
          unfold isNewKey in E. apply negb_true_iff in E.
          assert (existsb (sameKeyId k) current = true) as Hex
            by (apply existsb_exists; now exists a).
          congruence. }
        unfold overwriteAll. simpl. now rewrite Hk.
      * intros key Hin. apply In_putPublicKey in Hin as [Hin| ->]; auto.
    + rewrite IH.
      * rewrite map_map. f_equal. f_equal.
        apply filter_ext. intros key. apply isNewKey_overwrite.
      * intros key Hin. rewrite isNewKey_overwrite. auto.
Qed.

(** The incoming keys of other ids than the existing ones keep distinct
    ids. *)
Lemma new_keys_distinct (existing incoming : list PublicKeyModel.t) :
  NoDup (map PublicKeyModel.id incoming) ->
  NoDup (map PublicKeyModel.id (filter (isNewKey existing) incoming)).
Proof.
  intros Hdistinct.
  induction incoming as [|key rest IH]; simpl in *; [constructor|].
  apply NoDup_cons_iff in Hdistinct as [Hkey Hrest].
  destruct (isNewKey existing key); simpl; [|now apply IH].
  apply NoDup_cons_iff. split; [|now apply IH].
  intros Hin. apply Hkey.
  apply in_map_iff in Hin as (other & Hid & Hother).
  apply filter_In in Hother as [Hother _].
  rewrite <- Hid. now apply in_map.
Qed.

(** Keys of distinct ids, none of them in the collection, are appended as
    they come. *)
Lemma fold_putPublicKey_distinct (incoming appended : list PublicKeyModel.t) :
  NoDup (map PublicKeyModel.id (appended ++ incoming)%list) ->
  fold_left putPublicKey incoming appended = (appended ++ incoming)%list.
Proof.
  revert appended. induction incoming as [|k rest IH]; intros appended H.
  - simpl. now rewrite app_nil_r.
  - simpl. rewrite putPublicKey_unfold.
    replace (existsb (sameKeyId k) appended) with false.
    + rewrite IH; rewrite <- app_assoc; [reflexivity | exact H].
    + symmetry. destruct (existsb (sameKeyId k) appended) eqn:E; [|reflexivity].
      apply existsb_exists in E as (a & Ha & Hs). apply sameKeyId_eq in Hs.
      rewrite map_app in H. simpl in H. apply NoDup_remove_2 in H.
      exfalso. apply H. apply in_or_app. left.
      rewrite Hs. now apply in_map.
Qed.

End PatchFacts.

(* ================================================================== *)
(** ** DocumentComposer: the properties of patch application *)

Section PatchProperties.

Import DocumentComposer PatchFacts.

Lemma contentAfter_unique (incoming : list PublicKeyModel.t)
    (existing new : PublicKeyModel.t) :
  NoDup (map PublicKeyModel.id incoming) ->
  In new incoming ->
  PublicKeyModel.id new = PublicKeyModel.id existing ->
  contentAfter incoming existing = new.
Proof.
  intros Hnodup Hin Hid. unfold contentAfter.
  destruct (find (fun key => sameKeyId key existing) (rev incoming))
    as [found|] eqn:F.
  - apply find_some in F as [Hfound Hsame].
    apply in_rev in Hfound. apply sameKeyId_eq in Hsame.
    clear - Hnodup Hin Hfound Hid Hsame.
    induction incoming as [|k rest IH]; [contradiction|].
    simpl in Hnodup. inversion Hnodup as [|? ? Hk Hrest]; subst.
    destruct Hin as [->|Hin], Hfound as [->|Hfound]; auto.
    + exfalso. apply Hk. rewrite Hid, <- Hsame. now apply in_map.
    + exfalso. apply Hk. rewrite Hsame, <- Hid. now apply in_map.
  - pose proof (find_none _ _ F new (proj1 (in_rev _ _) Hin)) as Hf.
    simpl in Hf. apply sameKeyId_eq in Hid. congruence.
Qed.

Lemma contentAfter_untouched (incoming : list PublicKeyModel.t)
    (existing : PublicKeyModel.t) :
  (forall new, In new incoming ->
               PublicKeyModel.id new <> PublicKeyModel.id existing) ->
  contentAfter incoming existing = existing.
Proof.
  intros H. unfold contentAfter.
  destruct (find (fun key => sameKeyId key existing) (rev incoming))
    as [found|] eqn:F; [|reflexivity].
  apply find_some in F as [Hfound Hsame].
  apply in_rev in Hfound. apply sameKeyId_eq in Hsame.
  now destruct (H found Hfound).
Qed.

Lemma filter_all {A : Type} (p : A -> bool) (l : list A) :
  (forall x, In x l -> p x = true) -> filter p l = l.
Proof.
  induction l as [|x l IH]; intros H; [reflexivity|].
  simpl. rewrite (H x (or_introl eq_refl)), IH; [reflexivity|].
  intros y Hy. apply H. now right.
Qed.

(** *** The keys after an [add-public-keys] patch, stated on the ids alone *)

(** Two keys of the same id. *)
Definition sharesId (a b : PublicKeyModel.t) : bool :=
  String.eqb (PublicKeyModel.id a) (PublicKeyModel.id b).

(** The last incoming key with the id of [key]; [key] when there is none. *)
Definition lastWithIdOf (incoming : list PublicKeyModel.t)
    (key : PublicKeyModel.t) : PublicKeyModel.t :=
  match find (fun candidate => sharesId candidate key) (rev incoming) with
  | Some candidate => candidate
  | None => key
  end.

(** A key whose id none of the keys of the document has. *)
Definition hasNewId (existing : list PublicKeyModel.t)
    (key : PublicKeyModel.t) : bool :=
  negb (existsb (sharesId key) existing).

(** The first key of each id, in the order of the list. *)
Fixpoint firstOfEachId (keys : list PublicKeyModel.t)
    : list PublicKeyModel.t :=
  match keys with
  | [] => []
  | key :: rest =>
      key :: filter (fun other => negb (sharesId other key))
                    (firstOfEachId rest)
  end.

(** The public keys of a document after the incoming keys are added: the
    existing keys in their places, then one key for each new id in the
    order in which the ids come, each with the content of the last incoming
    key of its id. *)
Definition keysAfterAdding (existing incoming : list PublicKeyModel.t)
    : list PublicKeyModel.t :=
  (map (lastWithIdOf incoming) existing
   ++ map (lastWithIdOf incoming)
        (firstOfEachId (filter (hasNewId existing) incoming)))%list.

Lemma find_skips {A : Type} (f : A -> bool) (skipped l : list A) :
  (forall x, In x skipped -> f x = false) ->
  find f (skipped ++ l) = find f l.
Proof.
  induction skipped as [|x skipped IH]; intros H; [reflexivity|].
  simpl. rewrite (H x (or_introl eq_refl)). apply IH.
  intros y Hy. apply H. now right.
Qed.

Lemma filter_swap {A : Type} (p q : A -> bool) (l : list A) :
  filter p (filter q l) = filter q (filter p l).
Proof.
  induction l as [|x l IH]; [reflexivity|].
  simpl. destruct (p x) eqn:P, (q x) eqn:Q; simpl; rewrite ?P, ?Q, IH;
    reflexivity.
Qed.

Lemma filter_absorbs {A : Type} (p q : A -> bool) (l : list A) :
  (forall x, p x = true -> q x = true) ->
  filter p (filter q l) = filter p l.
Proof.
  intros H. induction l as [|x l IH]; [reflexivity|].
  simpl. destruct (q x) eqn:Q; simpl.
  - now rewrite IH.
  - destruct (p x) eqn:P; [|exact IH].
    rewrite (H x P) in Q. discriminate.
Qed.

Lemma firstOfEachId_filter (key : PublicKeyModel.t)
    (keys : list PublicKeyModel.t) :
  firstOfEachId (filter (fun other => negb (sharesId other key)) keys)
  = filter (fun other => negb (sharesId other key)) (firstOfEachId keys).
Proof.
  induction keys as [|x rest IH]; [reflexivity|].
  simpl. destruct (sharesId x key) eqn:E; simpl.
  - rewrite IH. symmetry. apply filter_absorbs.
    intros y Hy. apply negb_true_iff in Hy. apply negb_true_iff.
    destruct (sharesId y x) eqn:S; [|reflexivity].
    unfold sharesId in *. apply String.eqb_eq in E, S.
    rewrite S, E, String.eqb_refl in Hy. discriminate.
  - rewrite IH. f_equal. apply filter_swap.
Qed.

Lemma firstOfEachId_incl (keys : list PublicKeyModel.t)
    (key : PublicKeyModel.t) :
  In key (firstOfEachId keys) -> In key keys.
Proof.
  revert key. induction keys as [|x rest IH]; intros key H; [exact H|].
  simpl in H. destruct H as [->|H]; [now left|].
  right. apply IH. now apply filter_In in H as [H _].
Qed.

Lemma firstOfEachId_distinct (keys : list PublicKeyModel.t) :
  NoDup (map PublicKeyModel.id keys) -> firstOfEachId keys = keys.
Proof.
  induction keys as [|x rest IH]; intros H; [reflexivity|].
  simpl in *. apply NoDup_cons_iff in H as [Hx Hrest].
  rewrite (IH Hrest). f_equal. apply filter_all.
  intros y Hy. apply negb_true_iff.
  destruct (sharesId y x) eqn:S; [|reflexivity].
  unfold sharesId in S. apply String.eqb_eq in S.
  exfalso. apply Hx. rewrite <- S. now apply in_map.
Qed.

(** Incoming keys that are filtered out do not matter to a key of another
    id. *)
Lemma overwriteAll_filter (p : PublicKeyModel.t -> bool)
    (incoming : list PublicKeyModel.t) (key : PublicKeyModel.t) :
  (forall candidate, In candidate incoming ->
     sameKeyId candidate key = true -> p candidate = true) ->
  overwriteAll (filter p incoming) key = overwriteAll incoming key.
Proof.
  revert key. induction incoming as [|k rest IH]; intros key H;
    [reflexivity|].
  simpl filter. destruct (p k) eqn:P.
  - unfold overwriteAll in *. simpl. apply IH.
    intros candidate Hin Hsame. apply H; [now right|].
    now rewrite overwrite_keeps_id in Hsame.
  - assert (overwrite k key = key) as Hk.
    { unfold overwrite. destruct (sameKeyId k key) eqn:S; [|reflexivity].
      rewrite (H k (or_introl eq_refl) S) in P. discriminate. }
    unfold overwriteAll in *. simpl. rewrite Hk. apply IH.
    intros candidate Hin Hsame. apply H; [now right | exact Hsame].
Qed.

(** The keys added to an empty collection: one key for each id. *)
Lemma fold_putPublicKey_from_empty (incoming : list PublicKeyModel.t) :
  fold_left putPublicKey incoming []
  = map (lastWithIdOf incoming) (firstOfEachId incoming).
Proof.
  remember (List.length incoming) as n eqn:Hn.
  assert (List.length incoming <= n)%nat as Hle by lia. clear Hn.
  revert incoming Hle.
  induction n as [|n IH]; intros [|k rest] Hle; try reflexivity;
    simpl in Hle; [lia|].
  change (fold_left putPublicKey (k :: rest) [])
    with (fold_left putPublicKey rest ([k] ++ [])%list).
  rewrite fold_putPublicKey by (intros key []).
  rewrite IH
    by (eapply Nat.le_trans; [apply filter_length_le | lia]).
  simpl. f_equal.
  - rewrite overwriteAll_contentAfter.
    change (lastWithIdOf (k :: rest) k) with (contentAfter (k :: rest) k).
    rewrite <- !overwriteAll_contentAfter.
    unfold overwriteAll. simpl. unfold overwrite.
    now destruct (sameKeyId k k).
  - assert (forall other,
              isNewKey [k] other = negb (sharesId other k)) as Hnew.
    { intros other. unfold isNewKey. simpl. now rewrite orb_false_r. }
    rewrite (filter_ext _ _ Hnew), firstOfEachId_filter.
    apply map_ext_in. intros x Hx.
    apply filter_In in Hx as [_ Hx]. apply negb_true_iff in Hx.
    change (lastWithIdOf ?l x) with (contentAfter l x).
    rewrite <- !overwriteAll_contentAfter.
    rewrite overwriteAll_filter.
    + assert (overwrite k x = x) as Hk.
      { unfold overwrite. rewrite sameKeyId_sym.
        change (sameKeyId x k) with (sharesId x k). now rewrite Hx. }
      unfold overwriteAll. simpl. now rewrite Hk.
    + intros candidate _ Hsame. apply negb_true_iff.
      destruct (sharesId candidate k) eqn:S; [|reflexivity].
      unfold sameKeyId, sharesId in *. apply String.eqb_eq in Hsame, S.
      rewrite <- Hsame, S, String.eqb_refl in Hx. discriminate.
Qed.

(** The loop of [addPublicKeys] on the keys of a document. *)
Lemma fold_putPublicKey_keysAfterAdding
    (existing incoming : list PublicKeyModel.t) :
  fold_left putPublicKey incoming existing = keysAfterAdding existing incoming.
Proof.
  unfold keysAfterAdding.
  rewrite <- (app_nil_r existing) at 1.
  rewrite fold_putPublicKey by (intros key []).
  rewrite fold_putPublicKey_from_empty. f_equal.
  - apply map_ext. apply overwriteAll_contentAfter.
  - apply map_ext_in. intros x Hx.
    apply firstOfEachId_incl, filter_In in Hx as [_ Hx].
    change (lastWithIdOf ?l x) with (contentAfter l x).
    rewrite <- !overwriteAll_contentAfter.
    apply overwriteAll_filter.
    intros candidate _ Hsame.
    change (isNewKey existing x = true) in Hx.
    unfold isNewKey in *.
    replace (existsb (sameKeyId candidate) existing)
      with (existsb (sameKeyId x) existing); [exact Hx|].
    clear Hx. induction existing as [|e existing IHe]; [reflexivity|].
    simpl. rewrite IHe. f_equal.
    unfold sameKeyId in *. apply String.eqb_eq in Hsame. now rewrite Hsame.
Qed.

(** (C6) An [add-public-keys] patch leaves the service endpoints alone.  Of
    the public keys of the document, each stays in its place, with the
    full content of the last incoming key of its id when there is one and
    with its own content otherwise.  Behind them comes one key for each id
    that is new to the document, in the order in which these ids come in
    the patch, with the full content of the last incoming key of that id;
    when the ids of the incoming keys are distinct these are the incoming
    keys of new ids as they come.  A document without [publicKeys] counts
    as one without keys.  Document [[{id:k, type:T1}]] and patch
    [[{id:k, type:T2}]] give [[{id:k, type:T2}]]. *)
Theorem add_public_keys_replaces_in_place_or_appends
    (existing incoming : list PublicKeyModel.t)
    (serviceEndpoints : option (list ServiceEndpointModel.t)) :
  applyPatches
    {| DocumentModel.publicKeys := Some existing;
       DocumentModel.serviceEndpoints := serviceEndpoints |}
    [AddPublicKeys incoming]
  = {| DocumentModel.publicKeys := Some (keysAfterAdding existing incoming);
       DocumentModel.serviceEndpoints := serviceEndpoints |}
  /\
  applyPatches
    {| DocumentModel.publicKeys := None;
       DocumentModel.serviceEndpoints := serviceEndpoints |}
    [AddPublicKeys incoming]
  = {| DocumentModel.publicKeys := Some (keysAfterAdding [] incoming);
       DocumentModel.serviceEndpoints := serviceEndpoints |}
  /\
  (forall position key,
     nth_error existing position = Some key ->
     nth_error (keysAfterAdding existing incoming) position
     = Some (lastWithIdOf incoming key))
  /\
  (forall key before new after,
     incoming = (before ++ new :: after)%list ->
     PublicKeyModel.id new = PublicKeyModel.id key ->
     (forall other, In other after ->
                    PublicKeyModel.id other <> PublicKeyModel.id key) ->
     lastWithIdOf incoming key = new)
  /\
  (forall key,
     (forall new, In new incoming ->
                  PublicKeyModel.id new <> PublicKeyModel.id key) ->
     lastWithIdOf incoming key = key)
  /\
  (NoDup (map PublicKeyModel.id incoming) ->
   keysAfterAdding existing incoming
   = (map (lastWithIdOf incoming) existing
      ++ filter (fun new =>
                   negb (existsb (fun key =>
                                    String.eqb (PublicKeyModel.id new)
                                               (PublicKeyModel.id key))
                                 existing))
                incoming)%list)
  /\
  applyPatches
    {| DocumentModel.publicKeys :=
         Some [PublicKeyModel.mk "k" "T1" JUndefined None];
       DocumentModel.serviceEndpoints := None |}
    [AddPublicKeys [PublicKeyModel.mk "k" "T2" JUndefined None]]
  = {| DocumentModel.publicKeys :=
         Some [PublicKeyModel.mk "k" "T2" JUndefined None];
       DocumentModel.serviceEndpoints := None |}
  /\
  applyPatches
    {| DocumentModel.publicKeys :=
         Some [PublicKeyModel.mk "a" "A1" JUndefined None;
               PublicKeyModel.mk "b" "B1" JUndefined None];
       DocumentModel.serviceEndpoints := None |}
    [AddPublicKeys [PublicKeyModel.mk "c" "C1" JUndefined None;
                    PublicKeyModel.mk "b" "B2" JUndefined None;
                    PublicKeyModel.mk "c" "C2" JUndefined None]]
  = {| DocumentModel.publicKeys :=
         Some [PublicKeyModel.mk "a" "A1" JUndefined None;
               PublicKeyModel.mk "b" "B2" JUndefined None;
               PublicKeyModel.mk "c" "C2" JUndefined None];
       DocumentModel.serviceEndpoints := None |}.
Proof.
  split; [|split; [|split; [|split; [|split; [|split; [|split]]]]]].
  - simpl. unfold addPublicKeys, existingPublicKeys. simpl.
    now rewrite fold_putPublicKey_keysAfterAdding.
  - simpl. unfold addPublicKeys, existingPublicKeys. simpl.
    now rewrite fold_putPublicKey_keysAfterAdding.
  - intros position key H. unfold keysAfterAdding.
    rewrite nth_error_app1
      by (rewrite length_map; apply nth_error_Some; congruence).
    now rewrite nth_error_map, H.
  - intros key before new after -> Hid Hafter. unfold lastWithIdOf.
    rewrite rev_app_distr. simpl. rewrite <- app_assoc. simpl.
    rewrite find_skips.
    + cbn [find]. unfold sharesId. rewrite Hid, String.eqb_refl. reflexivity.
    + intros x Hx. apply in_rev in Hx. unfold sharesId.
      apply String.eqb_neq. now apply Hafter.
  - intros key H. apply (contentAfter_untouched incoming key H).
  - intros Hdistinct. unfold keysAfterAdding. f_equal.
    change (filter _ incoming) with (filter (isNewKey existing) incoming).
    pose proof (new_keys_distinct existing incoming Hdistinct) as Hnew.
    change (hasNewId existing) with (isNewKey existing).
    rewrite (firstOfEachId_distinct _ Hnew).
    rewrite <- (map_id (filter (isNewKey existing) incoming)) at 2.
    apply map_ext_in. intros x Hx. apply filter_In in Hx as [Hx _].
    now apply (contentAfter_unique incoming x x Hdistinct Hx).
  - reflexivity.
  - reflexivity.
Qed.

(** (C7) A [remove-service-endpoints] patch returns the document itself
    when the document has no [serviceEndpoints], and when none of its
    service endpoints has a listed id; in every case the public keys are
    untouched and the service endpoints that remain are those whose id is
    not listed, in their order. *)
Theorem remove_service_endpoints_filters_listed_ids
    (document : DocumentModel.t) (serviceEndpointIds : list string) :
  applyPatches document [RemoveServiceEndpoints serviceEndpointIds]
  = removeServiceEndpoints document serviceEndpointIds
  /\
  (DocumentModel.serviceEndpoints document = None ->
   removeServiceEndpoints document serviceEndpointIds = document)
  /\
  (forall existing,
     DocumentModel.serviceEndpoints document = Some existing ->
     (forall serviceEndpoint, In serviceEndpoint existing ->
        ~ In (ServiceEndpointModel.id serviceEndpoint) serviceEndpointIds) ->
     removeServiceEndpoints document serviceEndpointIds = document)
  /\
  (forall existing,
     DocumentModel.serviceEndpoints document = Some existing ->
     removeServiceEndpoints document serviceEndpointIds
     = {| DocumentModel.publicKeys := DocumentModel.publicKeys document;
          DocumentModel.serviceEndpoints :=
            Some (filter (isKept serviceEndpointIds) existing) |}
     /\
     forall serviceEndpoint,
       In serviceEndpoint (filter (isKept serviceEndpointIds) existing)
       <-> In serviceEndpoint existing
           /\ ~ In (ServiceEndpointModel.id serviceEndpoint)
                   serviceEndpointIds).
Proof.
  assert (forall serviceEndpoint,
            isKept serviceEndpointIds serviceEndpoint = true
            <-> ~ In (ServiceEndpointModel.id serviceEndpoint)
                     serviceEndpointIds) as Hkept.
  { intros e. unfold isKept, Js.includes. rewrite negb_true_iff.
    split.
    - intros H Hin.
      assert (existsb (String.eqb (ServiceEndpointModel.id e))
                      serviceEndpointIds = true) as Hex
        by (apply existsb_exists; eexists; split;
            [exact Hin | apply String.eqb_refl]).
      congruence.
    - intros H.
      destruct (existsb (String.eqb (ServiceEndpointModel.id e))
                        serviceEndpointIds) eqn:E; [|reflexivity].
      apply existsb_exists in E as (x & Hx & Hs).
      apply String.eqb_eq in Hs. subst x. contradiction. }
  split; [reflexivity|]. split; [|split].
  - intros H. unfold removeServiceEndpoints. now rewrite H.
  - intros existing H Habsent. unfold removeServiceEndpoints. rewrite H.
    fold (isKept serviceEndpointIds).
    rewrite filter_all by (intros e He; apply Hkept; auto).
    destruct document; simpl in *. now rewrite H.
  - intros existing H. split.
    + unfold removeServiceEndpoints. now rewrite H.
    + intros e. rewrite filter_In, Hkept. reflexivity.
Qed.

End PatchProperties.

(* ================================================================== *)
(** ** DocumentComposer: the properties of the external document *)

Section TransformProperties.

Import DocumentComposer.


(** (C4) A state whose next recovery commitment is undefined is rendered
    as the object [{status: "deactivated"}] and nothing else, whatever its
    document and its other fields are. *)
Theorem deactivated_state_yields_the_status_alone
    (didState : DidState.t) (did : string) :
  DidState.nextRecoveryCommitmentHash didState = None ->
  transformToExternalDocument didState did
  = JObject [ ("status", JString "deactivated") ].
Proof.
  intros H. unfold transformToExternalDocument. now rewrite H.
Qed.



End TransformProperties.

(* ================================================================== *)
(** ** DocumentComposer: the properties of validation *)

Section ValidationProperties.

Context {parameters : DocumentComposer.Parameters}.
Import DocumentComposer.

Lemma includes_In (names : list string) (name : string) :
  Js.includes names name = true <-> In name names.
Proof.
  unfold Js.includes. rewrite existsb_exists. split.
  - intros (x & Hx & Hs). apply String.eqb_eq in Hs. now subst.
  - intros H. exists name. split; [exact H | apply String.eqb_refl].
Qed.

Lemma validateId_inversion (id : JSON) (s : string) :
  validateId id = Ok s -> id = JString s.
Proof.
  unfold validateId. destruct id; try discriminate.
  destruct (String.length s0 <=? maxIdLength)%nat; [|discriminate].
  destruct (isBase64UrlString s0); [|discriminate].
  now intros [= ->].
Qed.

(** The loop over the entries, one step. *)
Lemma validatePublicKeyEntries_step (publicKey : JSON) (rest : list JSON)
    (publicKeyIdSet : list string) :
  validatePublicKeyEntries (publicKey :: rest) publicKeyIdSet = Ok tt ->
  exists id,
    Js.getProperty publicKey "id" = JString id
    /\ validateId (JString id) = Ok id
    /\ ~ In id publicKeyIdSet
    /\ validatePublicKeyType publicKey = Ok tt
    /\ validatePublicKeyUsage (Js.getProperty publicKey "usage") = Ok tt
    /\ validatePublicKeyEntries rest (id :: publicKeyIdSet) = Ok tt.
Proof.
  simpl.
  destruct (validateId (Js.getProperty publicKey "id")) as [id|] eqn:Hid;
    [|discriminate].
  cbn [bind].
  destruct (Js.includes publicKeyIdSet id) eqn:Hseen; [discriminate|].
  cbn [negb].
  destruct (validatePublicKeyType publicKey) as [[]|]; [|discriminate].
  cbn [bind].
  destruct (validatePublicKeyUsage (Js.getProperty publicKey "usage"))
    as [[]|]; [|discriminate].
  cbn [bind]. intros H. exists id.
  pose proof (validateId_inversion _ _ Hid) as Hjson.
  rewrite Hjson in Hid. repeat split; auto.
  intros Hin. apply includes_In in Hin. congruence.
Qed.

(** The entries that pass have ids that are strings, distinct, and none of
    those met before. *)
Lemma validatePublicKeyEntries_distinct (entries : list JSON)
    (publicKeyIdSet : list string) :
  validatePublicKeyEntries entries publicKeyIdSet = Ok tt ->
  exists ids : list string,
    publicKeyIds entries = map JString ids
    /\ NoDup ids
    /\ (forall id, In id ids -> ~ In id publicKeyIdSet).
Proof.
  revert publicKeyIdSet.
  induction entries as [|publicKey rest IH]; intros publicKeyIdSet H.
  - exists []. repeat split; [constructor | intros id []].
  - apply validatePublicKeyEntries_step in H
      as (id & Hid & _ & Hfresh & _ & _ & Hrest).
    destruct (IH _ Hrest) as (ids & Hids & Hnodup & Hnew).
    exists (id :: ids). simpl. rewrite Hid, <- Hids. repeat split.
    + constructor; [|exact Hnodup].
      intros Hin. apply (Hnew id Hin). now left.
    + intros x [<-|Hx]; [exact Hfresh|].
      intros Hseen. apply (Hnew x Hx). now right.
Qed.

(** The loop over entries that pass, followed by more entries. *)
Lemma validatePublicKeyEntries_app (valid more : list JSON)
    (publicKeyIdSet : list string) :
  validatePublicKeyEntries valid publicKeyIdSet = Ok tt ->
  exists ids : list string,
    publicKeyIds valid = map JString ids
    /\ validatePublicKeyEntries (valid ++ more)%list publicKeyIdSet
       = validatePublicKeyEntries more (rev ids ++ publicKeyIdSet)%list.
Proof.
  revert publicKeyIdSet.
  induction valid as [|publicKey rest IH]; intros publicKeyIdSet H.
  - now exists [].
  - pose proof H as Hstep. apply validatePublicKeyEntries_step in Hstep
      as (id & Hid & Hvalid & Hfresh & Htype & Husage & Hrest).
    destruct (IH _ Hrest) as (ids & Hids & Happ).
    exists (id :: ids). split.
    + simpl. now rewrite Hid, <- Hids.
    + simpl. rewrite Hid, Hvalid. cbn [bind].
      replace (Js.includes publicKeyIdSet id) with false.
      * cbn [negb]. rewrite Htype, Husage. cbn [bind].
        rewrite Happ, <- app_assoc. reflexivity.
      * symmetry. destruct (Js.includes publicKeyIdSet id) eqn:E;
          [|reflexivity].
        apply includes_In in E. contradiction.
Qed.

Lemma hasOwnProperty_lookup (properties : list (string * JSON))
    (name : string) (value : JSON) :
  Js.lookup name properties = Some value ->
  Js.hasOwnProperty (JObject properties) name = true
  /\ Js.getProperty (JObject properties) name = value.
Proof.
  intros H. split.
  - unfold Js.hasOwnProperty. simpl.
    induction properties as [|[key v] rest IH]; [discriminate|].
    simpl in *. rewrite String.eqb_sym.
    destruct (String.eqb key name); [reflexivity|]. now apply IH.
  - simpl. now rewrite H.
Qed.

Lemma JString_injective_NoDup (ids : list string) :
  NoDup ids -> NoDup (map JString ids).
Proof.
  induction 1 as [|id ids Hid Hnodup IH]; simpl; constructor; auto.
  intros Hin. apply in_map_iff in Hin as (x & [= ->] & Hx). contradiction.
Qed.

(** (C9, amended) For a document with a [publicKeys] array: when
    [validateDocument] succeeds, no two entries of the array have the same
    id; hence a document in which two entries have the same id is always
    rejected; and it is rejected with [PublicKeyIdDuplicated] when the
    repeated id is the first rule broken, that is, when the document has
    only known properties, the entries before the repeating one pass, and
    the repeated id is a well-formed id. *)
Theorem validated_public_key_ids_are_distinct
    (properties : list (string * JSON)) (entries : list JSON) :
  Js.lookup "publicKeys" properties = Some (JArray entries) ->
  (validateDocument (Some properties) = Ok tt -> NoDup (publicKeyIds entries))
  /\
  (forall i j first second,
     i <> j ->
     nth_error entries i = Some first ->
     nth_error entries j = Some second ->
     Js.getProperty first "id" = Js.getProperty second "id" ->
     exists e, validateDocument (Some properties) = Throw e)
  /\
  (forall valid duplicate rest id,
     forallb (Js.includes ["publicKeys"; "serviceEndpoints"])
             (map fst properties) = true ->
     entries = (valid ++ duplicate :: rest)%list ->
     validatePublicKeyEntries valid [] = Ok tt ->
     validateId (Js.getProperty duplicate "id") = Ok id ->
     In (JString id) (publicKeyIds valid) ->
     validateDocument (Some properties)
     = Throw DocumentComposerPublicKeyIdDuplicated).
Proof.
  intros Hlookup.
  destruct (hasOwnProperty_lookup _ _ _ Hlookup) as [Hhas Hget].
  assert (validateDocument (Some properties) = Ok tt ->
          NoDup (publicKeyIds entries)) as Hdistinct.
  { unfold validateDocument. rewrite Hhas, Hget.
    destruct (forallb _ _); [|discriminate].
    unfold validatePublicKeys.
    destruct (validatePublicKeyEntries entries []) as [[]|] eqn:Hloop;
      [|discriminate].
    intros _.
    destruct (validatePublicKeyEntries_distinct _ _ Hloop)
      as (ids & -> & Hnodup & _).
    now apply JString_injective_NoDup. }
  split; [exact Hdistinct|]. split.
  - intros i j first second Hij Hi Hj Hsame.
    destruct (validateDocument (Some properties)) as [[]|e] eqn:Hv;
      [|now exists e].
    exfalso. apply Hij.
    apply (proj1 (NoDup_nth_error _) (Hdistinct eq_refl)).
    + unfold publicKeyIds. rewrite length_map.
      apply nth_error_Some. congruence.
    + unfold publicKeyIds. rewrite !nth_error_map, Hi, Hj. simpl.
      now rewrite Hsame.
  - intros valid duplicate rest id Hknown -> Hvalid Hid Hrepeated.
    unfold validateDocument. simpl Js.Object_keys.
    rewrite Hknown, Hhas, Hget.
    unfold validatePublicKeys.
    destruct (validatePublicKeyEntries_app valid (duplicate :: rest) [] Hvalid)
      as (ids & Hids & ->).
    simpl. rewrite Hid. cbn [bind].
    replace (Js.includes (rev ids ++ []) id) with true; [reflexivity|].
    symmetry. apply includes_In. rewrite app_nil_r. apply -> in_rev.
    rewrite Hids in Hrepeated.
    apply in_map_iff in Hrepeated as (x & [= ->] & Hx). exact Hx.
Qed.

End ValidationProperties.

(* ================================================================== *)
(** ** The test-suite and the theorems on concrete inputs *)

Module Evaluation.
Import DocumentComposer.

#[local] Existing Instance Reference.collaborators.
#[local] Existing Instance Reference.parameters.

(** [applyPatches()]: should replace old key with the same ID with new
    values. *)
Example applyPatches_replaces_old_key :
  DocumentModel.publicKeys
    (applyPatches
       {| DocumentModel.publicKeys := Some [TestData.aRepeatingId];
          DocumentModel.serviceEndpoints := Some [] |}
       [AddPublicKeys [TestData.plainKey "aRepeatingId" "newTypeValue";
                       TestData.plainKey "aNonRepeatingId" "someType"]])
  = Some [TestData.plainKey "aRepeatingId" "newTypeValue";
          TestData.plainKey "aNonRepeatingId" "someType"].
Proof. reflexivity. Qed.

(** [removeServiceEndpoints]: should remove the expected elements. *)
Example removeServiceEndpoints_removes_listed :
  removeServiceEndpoints
    {| DocumentModel.publicKeys := Some [TestData.aRepeatingId];
       DocumentModel.serviceEndpoints :=
         Some (map TestData.serviceEndpoint ["1"; "2"; "3"; "4"]) |}
    ["1"; "3"]
  = {| DocumentModel.publicKeys := Some [TestData.aRepeatingId];
       DocumentModel.serviceEndpoints :=
         Some (map TestData.serviceEndpoint ["2"; "4"]) |}.
Proof. reflexivity. Qed.

(** [transformToExternalDocument]: the expected resolution result given
    keys across all usage types. *)
Example transformToExternalDocument_all_usages :
  transformToExternalDocument (TestData.didState (Some "anyCommitmentHash"))
    "did:method:suffix"
  = JObject
      [ ("@context", JString "https://www.w3.org/ns/did-resolution/v1");
        ("didDocument",
         JObject
           [ ("id", JString "did:method:suffix");
             ("@context",
              JArray [ JString "https://www.w3.org/ns/did/v1";
                       JObject [ ("@base", JString "did:method:suffix") ] ]);
             ("service", JUndefined);
             ("publicKey",
              JArray [ didDocumentPublicKey TestData.anySigningPublicKey ]);
             ("authentication",
              JArray [ JString "#anySigningKey";
                       didDocumentPublicKey TestData.authPublicKey ]) ]);
        ("methodMetadata",
         JObject
           [ ("operationPublicKeys",
              JArray [ didDocumentPublicKey TestData.anySigningPublicKey ]);
             ("recoveryKey", TestData.jwk "recovery-x" "recovery-y") ]) ].
Proof. reflexivity. Qed.

(** [validateDocument()]: the tests on the usage of a key, on an unknown
    property and on a missing document. *)
Example validateDocument_usage_rules :
  let key usage :=
    JObject [ ("id", JString "key1");
              ("type", JString EcdsaSecp256k1VerificationKey2019);
              ("jwk", JObject []);
              ("usage", usage) ] in
  let document usage := Some [ ("publicKeys", JArray [key usage]) ] in
  validateDocument (document (JArray []))
  = Throw DocumentComposerPublicKeyUsageMissingOrUnknown
  /\ validateDocument (document JUndefined)
     = Throw DocumentComposerPublicKeyUsageMissingOrUnknown
  /\ validateDocument
       (document (JArray [JString "ops"; JString "ops";
                          JString "ops"; JString "ops"]))
     = Throw DocumentComposerPublicKeyUsageExceedsMaxLength
  /\ validateDocument
       (document (JArray [JString "ops"; JString "somethingInvalid"]))
     = Throw DocumentComposerPublicKeyInvalidUsage
  /\ validateDocument (Some [ ("unknownProperty", JString "any value") ])
     = Throw DocumentComposerUnknownPropertyInDocument
  /\ validateDocument None = Throw DocumentComposerDocumentMissing
  /\ validateDocument (Some [ ("serviceEndpoints",
                               JString "this is not an array") ])
     = Throw DocumentComposerPatchServiceEndpointsNotArray.
Proof. repeat split. Qed.

(** [validateId()] and the tests on the ids of a patch. *)
Example validateId_rules :
  validateId (JString "AnInavlidIdWith#")
  = Throw DocumentComposerIdNotUsingBase64UrlCharacterSet
  /\ validateId (JNumber 1234) = Throw DocumentComposerIdNotString
  /\ validateId
       (JString "super long super long super long super long super long")
     = Throw DocumentComposerIdTooLong
  /\ validateId (JString "key1") = Ok "key1".
Proof. repeat split. Qed.

(** The initial state [.aa], with nothing before the dot, on the reference
    collaborators: the error is the one of the parser. *)
Example leading_dot_on_reference :
  Did.create "did:method:120159?-method-initial-state=.aa" "did:method:"
  = Throw (CollaboratorError "create_operation_suffix_data_not_json")
  /\ Did.create "did:method:120159?-method-initial-state=7b787d." "did:method:"
     = Throw DidInitialStateValueDoesNotContainTwoParts
  /\ Did.create "did:method:120159?-method-initial-state=7b787daa" "did:method:"
     = Throw DidInitialStateValueContainsNoDot
  /\ Did.create "did:method:120159?-method-initial-state=7b.787d.aa"
       "did:method:"
     = Throw DidInitialStateValueContainsMoreThanOneDot.
Proof. repeat split. Qed.

(** C1, on the reference collaborators: the suffix [120159] is the encoded
    multihash of the suffix data [7b787d]. *)
Lemma long_form_round_trip_on_reference :
  Did.create (collaborators := Reference.collaborators)
    (longFormString "did:method:" "120159" "-method-initial-state=7b787d.aa")
    "did:method:"
  = Ok (@Did.mkDid Reference.collaborators
          false "did:method:" "120159"
          (Some {| Reference.encodedSuffixData := "7b787d";
                   Reference.encodedDelta := "aa" |})
          "did:method:120159").
Proof.
  refine (proj1 (proj2 (@long_form_suffix_is_cross_checked
                          Reference.collaborators
                          "did:method:" "120159"
                          "-method-initial-state=7b787d.aa" "7b787d" "aa"
                          eq_refl eq_refl eq_refl _ eq_refl eq_refl eq_refl _)
                   {| Reference.encodedSuffixData := "7b787d";
                      Reference.encodedDelta := "aa" |}
                   _ _ _ 18%Z
                   eq_refl eq_refl eq_refl eq_refl eq_refl eq_refl) eq_refl);
    discriminate.
Defined.

(** C1, as the specification states it, fails: the suffix [120151] is the encoded
    multihash of the suffix data [78], the string has the long form with the
    single initial-state entry [78.aa], and [Did.create] fails, with the
    error of the creation-operation parser. *)
Lemma long_form_with_matching_suffix_rejected_by_the_parser :
  Did.URL_searchParams (Collaborators := Reference.collaborators)
    (longFormString "did:method:" "120151" "-method-initial-state=78.aa")
  = Some [("-method-initial-state", "78.aa")]
  /\
  (suffixBuffer <- Did.decodeAsBuffer (Collaborators := Reference.collaborators)
                     "120151" ;;
   code <- Did.getHashAlgorithmCode suffixBuffer ;;
   dataBuffer <- Did.decodeAsBuffer "78" ;;
   multihash <- Did.hash dataBuffer code ;;
   Ok (Did.encode multihash)) = Ok "120151"
  /\
  Did.create (collaborators := Reference.collaborators)
    (longFormString "did:method:" "120151" "-method-initial-state=78.aa")
    "did:method:"
  = Throw (CollaboratorError "create_operation_suffix_data_not_json").
Proof. repeat split. Qed.

(** C3, on the reference collaborators: a query without entry. *)
Lemma query_without_entry_on_reference :
  Did.create (collaborators := Reference.collaborators)
    "did:method:abc?" "did:method:"
  = Throw DidLongFormNoInitialStateFound.
Proof.
  refine (proj1 (@create_judges_the_query_in_order Reference.collaborators
                   "did:method:abc?" "did:method:" _ []
                   eq_refl eq_refl eq_refl eq_refl) eq_refl).
Defined.

(** C3, as the specification states it, fails: the query [a=1&b=2] has more than
    one entry, and the error is not [DidLongFormOnlyOneQueryParamAllowed]. *)
Lemma two_parameters_rejected_for_the_key_of_the_first :
  Did.URL_searchParams (Collaborators := Reference.collaborators)
    "did:method:abc?a=1&b=2"
  = Some [("a", "1"); ("b", "2")]
  /\
  Did.create (collaborators := Reference.collaborators)
    "did:method:abc?a=1&b=2" "did:method:"
  = Throw DidLongFormOnlyInitialStateParameterIsAllowed.
Proof. split; reflexivity. Qed.

(** C4, on the state of the test-suite. *)
Lemma deactivated_state_of_the_test_suite :
  transformToExternalDocument (TestData.didState None) "did:method:suffix"
  = JObject [ ("status", JString "deactivated") ].
Proof.
  exact (deactivated_state_yields_the_status_alone
           (TestData.didState None) "did:method:suffix" eq_refl).
Defined.


(** C8, on the reference collaborators: a short-form string. *)
Lemma short_form_invariants_on_reference :
  Did.create "did:method:abc" "did:method:"
  = Ok (@Did.mkDid Reference.collaborators
          true "did:method:" "abc" None "did:method:abc")
  /\
  forall query : string,
    Did.create "did:method:" "did:method:" = Throw DidNoUniqueSuffix
    /\ Did.create ("did:method:" ++ String "?" query) "did:method:"
       = Throw DidNoUniqueSuffix.
Proof.
  split; [reflexivity|].
  exact (proj2 (@create_invariants Reference.collaborators
                  "did:method:abc" "did:method:" _ eq_refl) eq_refl).
Defined.

(** C9, on the document of the test-suite with two keys of id [key1]. *)
Lemma repeated_key_id_of_the_test_suite :
  validateDocument (parameters := Reference.parameters)
    (Some TestData.documentWithRepeatedKeyId)
  = Throw DocumentComposerPublicKeyIdDuplicated.
Proof.
  refine (proj2 (proj2 (@validated_public_key_ids_are_distinct
                          Reference.parameters
                          TestData.documentWithRepeatedKeyId _ eq_refl))
            [TestData.key1 "publicKeyHex"] (TestData.key1 "publicKeyPem") []
            "key1" eq_refl eq_refl eq_refl eq_refl _).
  simpl. now left.
Defined.

(** C9, as the specification states it, fails: the document has two public keys
    of the same id and is rejected for its unknown property. *)
Lemma repeated_key_id_behind_an_unknown_property :
  Js.lookup "publicKeys" TestData.documentWithRepeatedKeyIdAndUnknownProperty
  = Some (JArray [TestData.key1 "publicKeyHex"; TestData.key1 "publicKeyPem"])
  /\
  Js.getProperty (TestData.key1 "publicKeyHex") "id"
  = Js.getProperty (TestData.key1 "publicKeyPem") "id"
  /\
  validateDocument (parameters := Reference.parameters)
    (Some TestData.documentWithRepeatedKeyIdAndUnknownProperty)
  = Throw DocumentComposerUnknownPropertyInDocument.
Proof. repeat split. Qed.

(** C10, on the reference collaborators: the prefix [did]. *)
Lemma prefix_without_colon_on_reference :
  Did.create (collaborators := Reference.collaborators)
    "did:method:abc" "did"
  = Throw DidInvalidMethodName.
Proof.
  exact (@create_checks_the_prefix_first Reference.collaborators
           "did:method:abc" "did" eq_refl).
Defined.

End Evaluation.

(* ================================================================== *)
(** ** Did.ts: further facts about the string operations *)

Module JsStringMoreFacts.
Import JsString JsStringFacts.

Lemma prefix_decompose (p s : string) :
  String.prefix p s = true -> exists r, s = p ++ r.
Proof.
  revert s. induction p as [|x p IH]; intros s H.
  - now exists s.
  - destruct s as [|y s]; simpl in H; [discriminate|].
    destruct (ascii_dec x y) as [->|]; [|discriminate].
    destruct (IH s H) as [r ->]. now exists r.
Qed.

Lemma startsWith_false (s p : string) :
  (forall r, s <> p ++ r) -> startsWith s p = false.
Proof.
  intros H. unfold startsWith.
  destruct (String.prefix p s) eqn:E; [|reflexivity].
  destruct (prefix_decompose _ _ E) as [r Hr]. now destruct (H r).
Qed.

Lemma index_of_Some_split (c : ascii) (s : string) (i : nat) :
  index_of c s = Some i ->
  exists a b, s = a ++ String c b /\ index_of c a = None
              /\ String.length a = i.
Proof.
  revert i. induction s as [|x s IH]; intros i H; [discriminate|].
  simpl in H. destruct (Ascii.eqb_spec x c) as [->|Hx].
  - injection H as <-. now exists EmptyString, s.
  - destruct (index_of c s) as [k|]; [|discriminate].
    injection H as <-.
    destruct (IH k eq_refl) as (a & b & -> & Ha & Hlen).
    exists (String x a), b. repeat split.
    + apply index_of_none_cons. now split.
    + simpl. now rewrite Hlen.
Qed.

Lemma last_index_of_after_sep (c : ascii) (a b : string) :
  last_index_of c (a ++ String c b)
  = match last_index_of c b with
    | Some k => Some (String.length a + S k)%nat
    | None => Some (String.length a)
    end.
Proof.
  induction a as [|x a IH]; simpl.
  - destruct (last_index_of c b); [reflexivity|].
    now rewrite Ascii.eqb_refl.
  - rewrite IH. now destruct (last_index_of c b).
Qed.

(** [substring] with its indices in the wrong order reads the same
    characters. *)
Lemma js_substring_swapped (s : string) (a b : nat) :
  (a <= b <= String.length s)%nat ->
  substring s (Z.of_nat b) (Z.of_nat a) = String.substring a (b - a) s.
Proof.
  intros H. unfold substring, length.
  replace (Z.min (Z.max (Z.of_nat a) 0) (Z.of_nat (String.length s)))
    with (Z.of_nat a) by lia.
  replace (Z.min (Z.max (Z.of_nat b) 0) (Z.of_nat (String.length s)))
    with (Z.of_nat b) by lia.
  replace (Z.min (Z.of_nat b) (Z.of_nat a)) with (Z.of_nat a) by lia.
  replace (Z.max (Z.of_nat b) (Z.of_nat a)) with (Z.of_nat b) by lia.
  rewrite Nat2Z.id. f_equal. lia.
Qed.

Lemma substring_middle (a b c : string) :
  String.substring (String.length a) (String.length b) (a ++ b ++ c) = b.
Proof. apply substring_app. Qed.

Lemma split_two_colons (a m rest : string) :
  index_of ":" a = None -> index_of ":" m = None ->
  nth 1 (split ":" (a ++ String ":" (m ++ String ":" rest))) EmptyString = m.
Proof.
  intros Ha Hm. now rewrite (split_app_sep _ _ _ Ha), (split_app_sep _ _ _ Hm).
Qed.

Lemma split_one_colon (a m : string) :
  index_of ":" a = None -> index_of ":" m = None ->
  nth 1 (split ":" (a ++ String ":" m)) EmptyString = m.
Proof.
  intros Ha Hm. now rewrite (split_app_sep _ _ _ Ha), (split_no_sep _ _ Hm).
Qed.

End JsStringMoreFacts.

(* ================================================================== *)
(** ** Did.ts: what a result of [Did.create] tells *)

Section DidInversion.

Context {collaborators : Did.Collaborators}.
Import JsString JsStringFacts JsStringMoreFacts.

(** A value is returned by [getInitialStateFromDidString] only as the value
    of the single entry under the expected key. *)
Lemma getInitialStateFromDidString_inversion
    (didString methodName value : string) :
  Did.getInitialStateFromDidString didString methodName = Ok value ->
  Did.URL_searchParams didString
  = Some [(Did.expectedKeyFor methodName, value)].
Proof.
  destruct (Did.URL_searchParams didString) as [entries|] eqn:Hurl.
  - rewrite (getInitialStateFromDidString_cases _ _ _ Hurl).
    destruct entries as [|[key v] rest]; [discriminate|].
    destruct (String.eqb_spec key (Did.expectedKeyFor methodName))
      as [->|]; [|discriminate].
    destruct rest; [|discriminate]. now intros [= ->].
  - now rewrite (getInitialStateFromDidString_invalid_url _ _ Hurl).
Qed.

(** The two ways in which [create] returns. *)
Lemma create_inversion (didString expectedDidPrefix : string) (did : Did.Did) :
  Did.create didString expectedDidPrefix = Ok did ->
  includes expectedDidPrefix ":" = true
  /\ exists parsed,
       Did.new didString expectedDidPrefix = Ok parsed
       /\ ((Did.isShortForm parsed = true /\ did = parsed)
           \/ (Did.isShortForm parsed = false
               /\ exists value operation suffixBuffer code dataBuffer multihash,
                    Did.getInitialStateFromDidString didString
                      (methodNameOf expectedDidPrefix) = Ok value
                    /\ Did.constructCreateOperationFromInitialState value
                       = Ok operation
                    /\ Did.decodeAsBuffer (Did.uniqueSuffix parsed)
                       = Ok suffixBuffer
                    /\ Did.getHashAlgorithmCode suffixBuffer = Ok code
                    /\ Did.decodeAsBuffer (Did.encodedSuffixData operation)
                       = Ok dataBuffer
                    /\ Did.hash dataBuffer code = Ok multihash
                    /\ Did.encode multihash = Did.uniqueSuffix parsed
                    /\ did = {| Did.isShortForm := false;
                                Did.didMethodName := Did.didMethodName parsed;
                                Did.uniqueSuffix := Did.uniqueSuffix parsed;
                                Did.createOperation := Some operation;
                                Did.shortForm := Did.shortForm parsed |})).
Proof.
  unfold Did.create. fold (methodNameOf expectedDidPrefix).
  destruct (List.length (split ":" expectedDidPrefix) <? 2)%nat eqn:Hparts;
    cbn [negb]; [discriminate|].
  intros H. split.
  - destruct (includes expectedDidPrefix ":") eqn:E; [reflexivity|].
    apply includes_false in E. rewrite (split_no_sep _ _ E) in Hparts.
    discriminate.
  - destruct (Did.new didString expectedDidPrefix) as [parsed|] eqn:Hnew;
      [|discriminate].
    exists parsed. split; [reflexivity|]. cbn [bind] in H.
    destruct (Did.isShortForm parsed) eqn:Hshort; cbn [negb] in H.
    + left. split; [reflexivity|]. now injection H.
    + right. split; [reflexivity|].
      destruct (Did.getInitialStateFromDidString didString
                  (methodNameOf expectedDidPrefix)) as [value|] eqn:Hget;
        cbn [bind] in H; [|discriminate].
      destruct (Did.constructCreateOperationFromInitialState value)
        as [operation|] eqn:Hop; cbn [bind] in H; [|discriminate].
      destruct (Did.decodeAsBuffer (Did.uniqueSuffix parsed))
        as [suffixBuffer|] eqn:HdecS; cbn [bind] in H; [|discriminate].
      destruct (Did.getHashAlgorithmCode suffixBuffer) as [code|] eqn:Hcode;
        cbn [bind] in H; [|discriminate].
      destruct (Did.decodeAsBuffer (Did.encodedSuffixData operation))
        as [dataBuffer|] eqn:Hdec; cbn [bind] in H; [|discriminate].
      destruct (Did.hash dataBuffer code) as [multihash|] eqn:Hhash;
        cbn [bind] in H; [|discriminate].
      destruct (String.eqb_spec (Did.encode multihash)
                  (Did.uniqueSuffix parsed)) as [Heq|]; [|discriminate].
      exists value, operation, suffixBuffer, code, dataBuffer, multihash.
      injection H as <-. repeat split; auto.
Qed.

(** How the constructor reads a string, when the prefix has no [?]. *)
Lemma new_decomposition (didString didMethodName : string) (parsed : Did.Did) :
  Did.new didString didMethodName = Ok parsed ->
  includes didMethodName "?" = false ->
  exists rest,
    didString = didMethodName ++ Did.uniqueSuffix parsed ++ rest
    /\ includes (Did.uniqueSuffix parsed) "?" = false
    /\ ((rest = EmptyString /\ Did.isShortForm parsed = true)
        \/ (exists query, rest = String "?" query
                          /\ Did.isShortForm parsed = false)).
Proof.
  intros Hnew Hp. apply includes_false in Hp.
  unfold Did.new in Hnew.
  destruct (startsWith didString didMethodName) eqn:Hstart; [|discriminate].
  destruct (prefix_decompose _ _ Hstart) as [r ->]. clear Hstart.
  unfold indexOf in Hnew.
  destruct (index_of "?" r) as [i|] eqn:Hr.
  - destruct (index_of_Some_split _ _ _ Hr) as (a & q & -> & Ha & <-).
    assert (index_of "?" (didMethodName ++ a ++ String "?" q)
            = Some (String.length (didMethodName ++ a))) as Hidx.
    { rewrite <- append_assoc.
      apply index_of_app_sep, index_of_app_none; assumption. }
    rewrite Hidx in Hnew. simpl js_index in Hnew. unfold length in Hnew.
    replace (Z.of_nat (String.length (didMethodName ++ a)) <? 0)%Z
      with false in Hnew by (symmetry; apply Z.ltb_ge; lia).
    rewrite js_substring_in_range in Hnew
      by (rewrite !length_app; simpl; lia).
    rewrite length_app, Nat.add_comm, Nat.add_sub, substring_app in Hnew.
    destruct (negb (Z.of_nat (String.length a) =? 0)%Z); [|discriminate].
    injection Hnew as <-. simpl.
    exists (String "?" q). repeat split.
    + now apply includes_false.
    + right. now exists q.
  - rewrite (index_of_app_none _ _ _ Hp Hr) in Hnew. simpl in Hnew.
    unfold substring_from, length in Hnew.
    rewrite js_substring_in_range in Hnew by (rewrite length_app; lia).
    rewrite length_app, Nat.add_comm, Nat.add_sub, substring_suffix in Hnew.
    destruct (negb (Z.of_nat (String.length r) =? 0)%Z); [|discriminate].
    injection Hnew as <-. simpl.
    exists EmptyString. rewrite append_empty_r. repeat split.
    + now apply includes_false.
    + now left.
Qed.

(** A creation operation comes out of
    [constructCreateOperationFromInitialState] only for a value with
    exactly one dot and text after it. *)
Lemma constructCreateOperation_inversion
    (initialState : string) (operation : Did.CreateOperation) :
  Did.constructCreateOperationFromInitialState initialState = Ok operation ->
  exists suffixData delta,
    initialState = suffixData ++ String "." delta
    /\ includes suffixData "." = false
    /\ includes delta "." = false
    /\ delta <> EmptyString.
Proof.
  unfold Did.constructCreateOperationFromInitialState, indexOf, lastIndexOf.
  destruct (index_of "." initialState) as [i|] eqn:Hfirst;
    [|simpl; discriminate].
  destruct (index_of_Some_split _ _ _ Hfirst) as (a & b & -> & Ha & <-).
  rewrite last_index_of_after_sep. simpl js_index at 1.
  replace (Z.of_nat (String.length a) =? -1)%Z with false
    by (symmetry; apply Z.eqb_neq; lia).
  cbn [negb].
  destruct (last_index_of "." b) as [k|] eqn:Hlast.
  - simpl js_index.
    replace (Z.of_nat (String.length a + S k) =? Z.of_nat (String.length a))%Z
      with false by (symmetry; apply Z.eqb_neq; lia).
    discriminate.
  - simpl js_index. rewrite Z.eqb_refl.
    unfold length. rewrite length_app.
    destruct b as [|y b].
    + simpl String.length.
      replace (Z.of_nat (String.length a)
               =? Z.of_nat (String.length a + 1) - 1)%Z with true
        by (symmetry; apply Z.eqb_eq; lia).
      cbn [negb]. discriminate.
    + intros _. exists a, (String y b). repeat split.
      * now apply includes_false.
      * apply includes_false. now apply last_index_of_none.
      * discriminate.
Qed.

End DidInversion.

(* ================================================================== *)
(** ** Did.ts: further properties of the constructor and of [create] *)

Section DidFurtherProperties.

Context {collaborators : Did.Collaborators}.
Import JsString JsStringFacts JsStringMoreFacts.

Ltac pass_the_prefix_check H :=
  unfold Did.create; rewrite (includes_true_parts _ _ H); cbn [negb].

(** (X1) A string made of the prefix and a non-empty suffix, without [?],
    is parsed as a short-form DID by the constructor alone: whatever the
    URL parser, the encoder, the multihash and the creation-operation
    parser do, [Did.create] returns the [Did] with that suffix, without
    creation operation, and with the string itself as short form. *)
Theorem create_parses_a_short_form_on_its_own
    (expectedDidPrefix suffix : string) :
  includes expectedDidPrefix ":" = true ->
  includes expectedDidPrefix "?" = false ->
  includes suffix "?" = false ->
  suffix <> EmptyString ->
  Did.create (expectedDidPrefix ++ suffix) expectedDidPrefix
  = Ok {| Did.isShortForm := true;
          Did.didMethodName := expectedDidPrefix;
          Did.uniqueSuffix := suffix;
          Did.createOperation := None;
          Did.shortForm := expectedDidPrefix ++ suffix |}.
Proof.
  intros Hcolon Hp Hs Hne. apply includes_false in Hp, Hs.
  pass_the_prefix_check Hcolon.
  now rewrite (new_short_form _ _ Hp Hs Hne).
Qed.

(** (X2) A string that does not begin with the expected prefix is refused
    with [DidIncorrectPrefix], short or long form, whatever follows. *)
Theorem create_rejects_a_string_without_the_prefix
    (didString expectedDidPrefix : string) :
  includes expectedDidPrefix ":" = true ->
  (forall rest, didString <> expectedDidPrefix ++ rest) ->
  Did.create didString expectedDidPrefix = Throw DidIncorrectPrefix.
Proof.
  intros Hcolon Hno. pass_the_prefix_check Hcolon.
  unfold Did.new. now rewrite (startsWith_false _ _ Hno).
Qed.

(** (X3) When the prefix has no [?], a [Did] that [Did.create] returns
    splits the string: the string is the prefix, the unique suffix and a
    rest; the suffix has no [?]; the rest is empty for a short-form [Did]
    and begins with [?] for a long-form one. *)
Theorem create_reads_the_suffix_up_to_the_question_mark
    (didString expectedDidPrefix : string) (did : Did.Did) :
  Did.create didString expectedDidPrefix = Ok did ->
  includes expectedDidPrefix "?" = false ->
  exists rest,
    didString = expectedDidPrefix ++ Did.uniqueSuffix did ++ rest
    /\ includes (Did.uniqueSuffix did) "?" = false
    /\ ((rest = EmptyString /\ Did.isShortForm did = true)
        \/ (exists query, rest = String "?" query
                          /\ Did.isShortForm did = false)).
Proof.
  intros Hcreate Hp.
  destruct (create_inversion _ _ _ Hcreate) as (_ & parsed & Hnew & Hcases).
  destruct (new_decomposition _ _ _ Hnew Hp) as (rest & Hstring & Hclean & Hrest).
  exists rest.
  destruct Hcases
    as [[_ ->]
       | (Hlong & ? & ? & ? & ? & ? & ? & _ & _ & _ & _ & _ & _ & _ & ->)];
    [split; [exact Hstring | split; [exact Hclean | exact Hrest]]|].
  simpl. split; [exact Hstring|]. split; [exact Hclean|].
  destruct Hrest as [[_ Hshort] | (query & Hquery & _)]; [congruence|].
  right. exists query. now split.
Qed.

(** (X4) When the prefix has no [?], the short form of a [Did] that
    [Did.create] returns, short or long form, is itself accepted by
    [Did.create], as the short-form DID of the same unique suffix. *)
Theorem short_form_of_a_result_parses_again
    (didString expectedDidPrefix : string) (did : Did.Did) :
  Did.create didString expectedDidPrefix = Ok did ->
  includes expectedDidPrefix "?" = false ->
  Did.create (Did.shortForm did) expectedDidPrefix
  = Ok {| Did.isShortForm := true;
          Did.didMethodName := expectedDidPrefix;
          Did.uniqueSuffix := Did.uniqueSuffix did;
          Did.createOperation := None;
          Did.shortForm := Did.shortForm did |}.
Proof.
  intros Hcreate Hp.
  destruct (create_inversion _ _ _ Hcreate) as (Hcolon & parsed & Hnew & Hcases).
  destruct (new_decomposition _ _ _ Hnew Hp) as (rest & _ & Hclean & _).
  destruct (new_inversion _ _ _ Hnew) as (_ & _ & Hne & Hform & _).
  assert (Did.uniqueSuffix did = Did.uniqueSuffix parsed
          /\ Did.shortForm did = Did.shortForm parsed) as [-> ->].
  { destruct Hcases
      as [[_ ->]
         | (_ & ? & ? & ? & ? & ? & ? & _ & _ & _ & _ & _ & _ & _ & ->)];
      auto. }
  rewrite Hform. apply includes_false in Hp, Hclean.
  pass_the_prefix_check Hcolon.
  now rewrite (new_short_form _ _ Hp Hclean Hne).
Qed.

(** (X5) A [Did] that [Did.create] returns with a creation operation is
    certified by it: the query of the string is the single entry under
    [-<method-name>-initial-state], the operation is what its value was
    parsed to, the unique suffix decodes to a multihash with an algorithm
    code, and the encoded hash, under that code, of the decoded suffix data
    of the operation is the unique suffix. *)
Theorem long_form_result_is_certified
    (didString expectedDidPrefix : string) (did : Did.Did)
    (operation : Did.CreateOperation) :
  Did.create didString expectedDidPrefix = Ok did ->
  Did.createOperation did = Some operation ->
  exists value suffixBuffer code dataBuffer multihash,
    Did.URL_searchParams didString
    = Some [(Did.expectedKeyFor (methodNameOf expectedDidPrefix), value)]
    /\ Did.constructCreateOperationFromInitialState value = Ok operation
    /\ Did.decodeAsBuffer (Did.uniqueSuffix did) = Ok suffixBuffer
    /\ Did.getHashAlgorithmCode suffixBuffer = Ok code
    /\ Did.decodeAsBuffer (Did.encodedSuffixData operation) = Ok dataBuffer
    /\ Did.hash dataBuffer code = Ok multihash
    /\ Did.encode multihash = Did.uniqueSuffix did.
Proof.
  intros Hcreate Hop.
  destruct (create_inversion _ _ _ Hcreate) as (_ & parsed & Hnew & Hcases).
  destruct Hcases
    as [[_ ->]
       | (_ & value & op & suffixBuffer & code & dataBuffer & multihash
          & Hget & Hconstruct & HdecS & Hcode & Hdec & Hhash & Henc & Hdid)].
  - destruct (new_inversion _ _ _ Hnew) as (_ & _ & _ & _ & Hnone).
    congruence.
  - subst did. simpl in *. injection Hop as <-.
    exists value, suffixBuffer, code, dataBuffer, multihash.
    apply getInitialStateFromDidString_inversion in Hget.
    repeat split; assumption.
Qed.

(** (X6) [constructCreateOperationFromInitialState] yields an operation
    exactly for a value that is two texts around one dot, the second text
    not empty, whose request the creation-operation parser accepts; the
    request holds the two texts, which joined by the dot are the value. *)
Theorem creation_operation_comes_from_two_parts
    (initialState : string) (operation : Did.CreateOperation) :
  Did.constructCreateOperationFromInitialState initialState = Ok operation
  <->
  exists suffixData delta,
    initialState = suffixData ++ String "." delta
    /\ includes suffixData "." = false
    /\ includes delta "." = false
    /\ delta <> EmptyString
    /\ Did.parseObject (createRequest suffixData delta)
         (Did.Buffer_from_JSON_stringify (createRequest suffixData delta))
         false
       = Ok operation.
Proof.
  split.
  - intros H.
    destruct (constructCreateOperation_inversion _ _ H)
      as (suffixData & delta & -> & Hsd & Hdl & Hne).
    exists suffixData, delta.
    rewrite (initial_state_with_one_dot _ _ Hsd Hdl Hne) in H.
    repeat split; assumption.
  - intros (suffixData & delta & -> & Hsd & Hdl & Hne & Hparse).
    now rewrite (initial_state_with_one_dot _ _ Hsd Hdl Hne).
Qed.

(** (X7) [constructCreateOperationFromInitialState] refuses, without a call
    of the parser, a value without dot
    ([DidInitialStateValueContainsNoDot]), a value with two dots or more
    ([DidInitialStateValueContainsMoreThanOneDot]), and a value whose only
    dot is its last character
    ([DidInitialStateValueDoesNotContainTwoParts]). *)
Theorem initial_state_values_refused_before_parsing (initialState : string) :
  (count "." initialState = 0%nat ->
   Did.constructCreateOperationFromInitialState initialState
   = Throw DidInitialStateValueContainsNoDot)
  /\
  ((2 <= count "." initialState)%nat ->
   Did.constructCreateOperationFromInitialState initialState
   = Throw DidInitialStateValueContainsMoreThanOneDot)
  /\
  (forall suffixData,
     initialState = suffixData ++ String "." EmptyString ->
     count "." suffixData = 0%nat ->
     Did.constructCreateOperationFromInitialState initialState
     = Throw DidInitialStateValueDoesNotContainTwoParts).
Proof.
  repeat split.
  - intros H. apply initial_state_without_dot, includes_false.
    now apply count_zero.
  - apply initial_state_with_more_than_one_dot.
  - intros suffixData -> H. apply initial_state_with_trailing_dot.
    apply includes_false. now apply count_zero.
Qed.

(** (X8) On a well-formed long-form string whose request the parser
    accepts, an error of the encoder or of the multihash is the error of
    [Did.create]: of the decoding of the suffix, of the reading of its
    algorithm code, of the decoding of the suffix data, and of the hashing,
    in this order. *)
Theorem suffix_check_propagates_the_errors_of_its_steps
    (expectedDidPrefix S query suffixData delta : string)
    (operation : Did.CreateOperation) :
  includes expectedDidPrefix ":" = true ->
  includes expectedDidPrefix "?" = false ->
  includes S "?" = false ->
  S <> EmptyString ->
  Did.URL_searchParams (longFormString expectedDidPrefix S query)
  = Some [(Did.expectedKeyFor (methodNameOf expectedDidPrefix),
           suffixData ++ String "." delta)] ->
  includes suffixData "." = false ->
  includes delta "." = false ->
  delta <> EmptyString ->
  Did.parseObject (createRequest suffixData delta)
    (Did.Buffer_from_JSON_stringify (createRequest suffixData delta)) false
  = Ok operation ->
  (forall e,
     Did.decodeAsBuffer S = Throw e ->
     Did.create (longFormString expectedDidPrefix S query) expectedDidPrefix
     = Throw e)
  /\
  (forall suffixBuffer e,
     Did.decodeAsBuffer S = Ok suffixBuffer ->
     Did.getHashAlgorithmCode suffixBuffer = Throw e ->
     Did.create (longFormString expectedDidPrefix S query) expectedDidPrefix
     = Throw e)
  /\
  (forall suffixBuffer code e,
     Did.decodeAsBuffer S = Ok suffixBuffer ->
     Did.getHashAlgorithmCode suffixBuffer = Ok code ->
     Did.decodeAsBuffer (Did.encodedSuffixData operation) = Throw e ->
     Did.create (longFormString expectedDidPrefix S query) expectedDidPrefix
     = Throw e)
  /\
  (forall suffixBuffer code dataBuffer e,
     Did.decodeAsBuffer S = Ok suffixBuffer ->
     Did.getHashAlgorithmCode suffixBuffer = Ok code ->
     Did.decodeAsBuffer (Did.encodedSuffixData operation) = Ok dataBuffer ->
     Did.hash dataBuffer code = Throw e ->
     Did.create (longFormString expectedDidPrefix S query) expectedDidPrefix
     = Throw e).
Proof.
  intros Hcolon Hp HS Hne Hurl Hsd Hdl Hdne Hparse.
  rewrite (create_long_form_parsed _ _ _ _ _
             Hcolon Hp HS Hne Hurl Hsd Hdl Hdne).
  rewrite Hparse. cbn [bind].
  repeat split.
  - intros e H. now rewrite H.
  - intros suffixBuffer e H1 H2. rewrite H1. cbn [bind]. now rewrite H2.
  - intros suffixBuffer code e H1 H2 H3.
    rewrite H1. cbn [bind]. rewrite H2. cbn [bind]. now rewrite H3.
  - intros suffixBuffer code dataBuffer e H1 H2 H3 H4.
    rewrite H1. cbn [bind]. rewrite H2. cbn [bind]. rewrite H3. cbn [bind].
    now rewrite H4.
Qed.

(** (X9) A string with prefix, non-empty suffix and [?] that the URL parser
    refuses is refused with [DidInvalidDidString]; the same string cut
    before the [?] is accepted as a short-form DID without being parsed
    as a URL. *)
Theorem long_form_string_must_be_a_url
    (expectedDidPrefix S query : string) :
  includes expectedDidPrefix ":" = true ->
  includes expectedDidPrefix "?" = false ->
  includes S "?" = false ->
  S <> EmptyString ->
  Did.URL_searchParams (longFormString expectedDidPrefix S query) = None ->
  Did.create (longFormString expectedDidPrefix S query) expectedDidPrefix
  = Throw DidInvalidDidString
  /\ exists did, Did.create (expectedDidPrefix ++ S) expectedDidPrefix = Ok did.
Proof.
  intros Hcolon Hp HS Hne Hurl. split.
  - apply includes_false in Hp, HS.
    eapply create_long_form_query.
    + exact Hcolon.
    + apply (new_long_form _ _ query Hp HS Hne).
    + reflexivity.
    + now apply getInitialStateFromDidString_invalid_url.
  - apply includes_false in Hp, HS. eexists.
    pass_the_prefix_check Hcolon.
    now rewrite (new_short_form _ _ Hp HS Hne).
Qed.

(** (X10) The key that [Did.create] expects in the query is made of the
    second colon-separated part of the prefix alone: under a prefix
    [a:m] or [a:m:rest], a long-form [Did] is returned only for a string
    whose query is the single entry [-m-initial-state], whatever [rest]
    is. *)
Theorem expected_key_uses_the_second_part_of_the_prefix
    (a m tail didString : string) (did : Did.Did) :
  includes a ":" = false ->
  includes m ":" = false ->
  tail = EmptyString \/ (exists rest, tail = String ":" rest) ->
  Did.create didString (a ++ String ":" (m ++ tail)) = Ok did ->
  Did.isShortForm did = false ->
  exists value,
    Did.URL_searchParams didString
    = Some [("-" ++ m ++ "-initial-state", value)].
Proof.
  intros Ha Hm Htail Hcreate Hlong. apply includes_false in Ha, Hm.
  assert (methodNameOf (a ++ String ":" (m ++ tail)) = m) as Hname.
  { unfold methodNameOf. destruct Htail as [-> | [rest ->]].
    - rewrite append_empty_r. now apply split_one_colon.
    - now apply split_two_colons. }
  destruct (create_inversion _ _ _ Hcreate) as (_ & parsed & Hnew & Hcases).
  destruct Hcases
    as [[Hshort ->] | (_ & value & ? & ? & ? & ? & ? & Hget & _)];
    [congruence|].
  exists value. apply getInitialStateFromDidString_inversion in Hget.
  rewrite Hname in Hget. exact Hget.
Qed.

(** (X11) When the expected prefix itself contains a [?], the constructor
    takes every string that begins with the prefix for a long-form DID and
    gives it the same unique suffix, the end of the prefix from its first
    [?]: the characters after the prefix are not read, and the bare prefix
    is not refused with [DidNoUniqueSuffix]. *)
Theorem prefix_with_a_question_mark_fixes_the_suffix (a b rest : string) :
  includes a "?" = false ->
  Did.new ((a ++ String "?" b) ++ rest) (a ++ String "?" b)
  = Ok {| Did.isShortForm := false;
          Did.didMethodName := a ++ String "?" b;
          Did.uniqueSuffix := String "?" b;
          Did.createOperation := None;
          Did.shortForm := (a ++ String "?" b) ++ String "?" b |}.
Proof.
  intros Ha. apply includes_false in Ha.
  assert (index_of "?" ((a ++ String "?" b) ++ rest)
          = Some (String.length a)) as Hidx.
  { rewrite append_assoc. simpl. now apply index_of_app_sep. }
  unfold Did.new, startsWith, indexOf.
  rewrite prefix_app, Hidx. simpl js_index. unfold length.
  replace (Z.of_nat (String.length a) <? 0)%Z with false
    by (symmetry; apply Z.ltb_ge; lia).
  rewrite js_substring_swapped by (rewrite !length_app; simpl; lia).
  replace (String.length (a ++ String "?" b) - String.length a)%nat
    with (String.length (String "?" b)) by (rewrite length_app; lia).
  rewrite append_assoc, substring_app.
  reflexivity.
Qed.

End DidFurtherProperties.

(* ================================================================== *)
(** ** The further properties of [Did.ts] on concrete inputs *)

Module EvaluationOfDid.

#[local] Existing Instance Reference.collaborators.

(** The long-form [Did] of the reference collaborators. *)
Definition referenceLongForm : Did.Did :=
  @Did.mkDid Reference.collaborators
    false "did:method:" "120159"
    (Some {| Reference.encodedSuffixData := "7b787d";
             Reference.encodedDelta := "aa" |})
    "did:method:120159".

(** X1: a short-form string that is no URL. *)
Lemma short_form_on_reference :
  Did.create ("1d:" ++ "abc") "1d:"
  = Ok (@Did.mkDid Reference.collaborators true "1d:" "abc" None "1d:abc").
Proof.
  refine (@create_parses_a_short_form_on_its_own Reference.collaborators
            "1d:" "abc" eq_refl eq_refl eq_refl _).
  discriminate.
Defined.

(** X2: a string of another method. *)
Lemma other_prefix_on_reference :
  Did.create "did:other:abc?-method-initial-state=7b787d.aa" "did:method:"
  = Throw DidIncorrectPrefix.
Proof.
  refine (@create_rejects_a_string_without_the_prefix Reference.collaborators
            "did:other:abc?-method-initial-state=7b787d.aa" "did:method:"
            eq_refl _).
  intros rest H. simpl in H. discriminate H.
Defined.

(** X3: the long-form string of the reference collaborators. *)
Lemma reference_long_form_is_split :
  exists rest,
    "did:method:120159?-method-initial-state=7b787d.aa"
    = "did:method:" ++ Did.uniqueSuffix referenceLongForm ++ rest
    /\ JsString.includes (Did.uniqueSuffix referenceLongForm) "?" = false
    /\ ((rest = EmptyString /\ Did.isShortForm referenceLongForm = true)
        \/ (exists query, rest = String "?" query
                          /\ Did.isShortForm referenceLongForm = false)).
Proof.
  exact (@create_reads_the_suffix_up_to_the_question_mark
           Reference.collaborators
           "did:method:120159?-method-initial-state=7b787d.aa" "did:method:"
           referenceLongForm eq_refl eq_refl).
Defined.

(** X4: the short form of the long-form [Did]. *)
Lemma reference_short_form_parses_again :
  Did.create (Did.shortForm referenceLongForm) "did:method:"
  = Ok (@Did.mkDid Reference.collaborators
          true "did:method:" "120159" None "did:method:120159").
Proof.
  exact (@short_form_of_a_result_parses_again Reference.collaborators
           "did:method:120159?-method-initial-state=7b787d.aa" "did:method:"
           referenceLongForm eq_refl eq_refl).
Defined.

(** X5: the long-form [Did] is certified by its operation. *)
Lemma reference_long_form_is_certified :
  exists value suffixBuffer code dataBuffer multihash,
    Did.URL_searchParams "did:method:120159?-method-initial-state=7b787d.aa"
    = Some [(Did.expectedKeyFor (methodNameOf "did:method:"), value)]
    /\ Did.constructCreateOperationFromInitialState value
       = Ok {| Reference.encodedSuffixData := "7b787d";
               Reference.encodedDelta := "aa" |}
    /\ Did.decodeAsBuffer "120159" = Ok suffixBuffer
    /\ Did.getHashAlgorithmCode suffixBuffer = Ok code
    /\ Did.decodeAsBuffer "7b787d" = Ok dataBuffer
    /\ Did.hash dataBuffer code = Ok multihash
    /\ Did.encode multihash = "120159".
Proof.
  exact (@long_form_result_is_certified Reference.collaborators
           "did:method:120159?-method-initial-state=7b787d.aa" "did:method:"
           referenceLongForm
           {| Reference.encodedSuffixData := "7b787d";
              Reference.encodedDelta := "aa" |}
           eq_refl eq_refl).
Defined.

(** X8: a suffix that names the algorithm code 19, which the reference
    multihash does not support. *)
Lemma unsupported_algorithm_on_reference :
  Did.create
    (longFormString "did:method:" "1302aabb" "-method-initial-state=7b787d.aa")
    "did:method:"
  = Throw (CollaboratorError "multihash_unsupported_hash_algorithm").
Proof.
  refine (proj2 (proj2 (proj2
            (@suffix_check_propagates_the_errors_of_its_steps
               Reference.collaborators
               "did:method:" "1302aabb" "-method-initial-state=7b787d.aa"
               "7b787d" "aa"
               {| Reference.encodedSuffixData := "7b787d";
                  Reference.encodedDelta := "aa" |}
               eq_refl eq_refl eq_refl _ eq_refl eq_refl eq_refl _ eq_refl)))
            _ 19%Z _ _ eq_refl eq_refl eq_refl eq_refl);
    discriminate.
Defined.

(** X9: a scheme may not begin with a digit. *)
Lemma no_url_on_reference :
  Did.create (longFormString "1d:" "abc" "x=1") "1d:"
  = Throw DidInvalidDidString
  /\ exists did, Did.create ("1d:" ++ "abc") "1d:" = Ok did.
Proof.
  refine (@long_form_string_must_be_a_url Reference.collaborators
            "1d:" "abc" "x=1" eq_refl eq_refl eq_refl _ eq_refl).
  discriminate.
Defined.

(** X10: the prefix [did:ion:test:] expects the key
    [-ion-initial-state]. *)
Lemma key_of_a_prefix_with_three_parts :
  exists value,
    Did.URL_searchParams "did:ion:test:120159?-ion-initial-state=7b787d.aa"
    = Some [("-" ++ "ion" ++ "-initial-state", value)].
Proof.
  refine (@expected_key_uses_the_second_part_of_the_prefix
            Reference.collaborators "did" "ion" ":test:"
            "did:ion:test:120159?-ion-initial-state=7b787d.aa"
            (@Did.mkDid Reference.collaborators
               false "did:ion:test:" "120159"
               (Some {| Reference.encodedSuffixData := "7b787d";
                        Reference.encodedDelta := "aa" |})
               "did:ion:test:120159")
            eq_refl eq_refl _ eq_refl eq_refl).
  right. now exists "test:".
Defined.

(** X11: under the prefix [did:?x:], the suffix of every string is
    [?x:]. *)
Lemma question_mark_in_the_prefix_on_reference :
  Did.new (("did:" ++ String "?" "x:") ++ "abc") ("did:" ++ String "?" "x:")
  = Ok (@Did.mkDid Reference.collaborators
          false "did:?x:" "?x:" None "did:?x:?x:").
Proof.
  exact (@prefix_with_a_question_mark_fixes_the_suffix
           Reference.collaborators "did:" "x:" "abc" eq_refl).
Defined.

End EvaluationOfDid.
